(** * IPO tracking backend: the data-access layer of [models.py]

    A shallow embedding of [models.py] and of the part of the relational
    store its statements rely on: the four tables of [init_db] with their
    NOT NULL, UNIQUE, PRIMARY KEY and FOREIGN KEY constraints, the SERIAL
    sequences, column defaults, and commit / rollback of the connection each
    function opens.

    Modelling choices.
    - An argument of a function is [None] (Python's None, SQL's NULL once
      bound to a statement) or a value of the Python type of the column: a
      [string] (a str, as its UTF-8 bytes, without NUL) for text, an integer
      for INTEGER, a [Decimal.t] (a finite [decimal.Decimal], or an int as a
      [Decimal] of exponent 0; not a float) for DECIMAL(10,2), a day number
      for a DATE, a point on the clock for a TIMESTAMP.  The store coerces
      each value to its column (VARCHAR(n), INTEGER, DECIMAL(10,2)), in the
      order of the columns, before anything else and refuses the statement
      when one does not fit.  Casts between types are not modelled.
    - Generated keys are unbounded, as are the sequences behind them (a
      SERIAL sequence runs out after 2^31 values).
    - The tables are those [init_db] creates; a [database] is a store on
      which [init_db] has run, so that a further [init_db] finds every table
      in place.
    - What a call cannot control is its [env]: whether the store can be
      reached, the store's clock, the salt [bcrypt.gensalt()] draws, and the
      order in which the store comes across the rows of a query (which
      decides the order of rows that ORDER BY leaves equal).
    - bcrypt itself is an interface ([Bcrypt]): [hashpw], [checkpw], and the
      passwords both refuse with [ValueError] (none before bcrypt 5.0, those
      over 72 bytes since); its one law used here is that a password checks
      against its own hash.  The hashes [checkpw] is given are those
      [create_user] stored. *)

From Stdlib Require Import ZArith List String Ascii Bool Lia Permutation Sorted.
Import ListNotations.
Local Open Scope string_scope.
Local Open Scope list_scope.
Local Open Scope Z_scope.

Set Implicit Arguments.

(** ** Column types *)

Definition timestamp := Z.
Definition date := Z.
Definition decimal := Z.    (* a DECIMAL(10,2) as stored: its value in hundredths *)

(** [decimal.Decimal], the Python value bound to a DECIMAL(10,2) column: a
    finite decimal [coefficient * 10 ^ exponent]. *)
Module Decimal.
Record t := mk {
  coefficient : Z;
  exponent : Z
}.
End Decimal.

(** A price given in hundredths, as [Decimal(h).scaleb(-2)]; this is also the
    [Decimal] a DECIMAL(10,2) column is read back as. *)
Definition cents (h : decimal) : Decimal.t := Decimal.mk h (-2).


(** ** Rows of the four tables of [init_db]

    A NOT NULL column has a plain type, a nullable one an [option]. *)

Module Users.
Record row := mk {
  user_id : Z;                      (* SERIAL PRIMARY KEY *)
  username : string;                (* VARCHAR(255) UNIQUE NOT NULL *)
  email : string;                   (* VARCHAR(255) UNIQUE NOT NULL *)
  password_hash : string;           (* VARCHAR(255) NOT NULL *)
  first_name : option string;
  last_name : option string;
  created_at : option timestamp     (* DEFAULT CURRENT_TIMESTAMP *)
}.
End Users.

Module IPOs.
Record row := mk {
  ipo_id : Z;                       (* SERIAL PRIMARY KEY *)
  name : string;                    (* VARCHAR(255) NOT NULL *)
  symbol : string;                  (* VARCHAR(20) NOT NULL *)
  company_name : option string;
  offering_price : option decimal;
  total_shares : option Z;
  ipo_date : option date;
  status : option string;           (* DEFAULT 'upcoming' *)
  description : option string;
  created_at : option timestamp;    (* DEFAULT CURRENT_TIMESTAMP *)
  updated_at : option timestamp     (* DEFAULT CURRENT_TIMESTAMP *)
}.
End IPOs.

Module Ongoing_Watchlist.
Record row := mk {
  watchlist_id : Z;                 (* SERIAL PRIMARY KEY *)
  user_id : Z;                      (* NOT NULL REFERENCES Users *)
  ipo_id : Z;                       (* NOT NULL REFERENCES IPOs *)
  expiry_date : option date
}.
End Ongoing_Watchlist.

Module Past_Investments.
Record row := mk {
  investment_id : Z;                (* SERIAL PRIMARY KEY *)
  user_id : Z;                      (* NOT NULL REFERENCES Users *)
  ipo_id : Z;                       (* NOT NULL REFERENCES IPOs *)
  shares_purchased : Z;             (* NOT NULL *)
  purchase_price : decimal;         (* NOT NULL *)
  sold_date : option timestamp;     (* DEFAULT CURRENT_TIMESTAMP *)
  status : option string            (* DEFAULT 'pending' *)
}.
End Past_Investments.

(** Rows of the two joins, as [dict(row)] presents them. *)

Module Watchlist_Item.
(* SELECT ow.watchlist_id, ow.expiry_date, i.* *)
Record row := mk {
  watchlist_id : Z;
  expiry_date : option date;
  ipo : IPOs.row
}.
End Watchlist_Item.

Module Investment_Item.
(* SELECT pi.*, i.name AS ipo_name, i.symbol, i.ipo_date *)
Record row := mk {
  investment : Past_Investments.row;
  ipo_name : string;
  symbol : string;
  ipo_date : option date
}.
End Investment_Item.

(** ** The store *)

Record tables := mkTables {
  users : list Users.row;
  ipos : list IPOs.row;
  ongoing_watchlist : list Ongoing_Watchlist.row;
  past_investments : list Past_Investments.row
}.

(** The sequences behind the SERIAL columns; each holds the value the next
    [nextval] hands out.  A sequence is not transactional: a value drawn by
    a statement that fails, or that is rolled back, is not handed out
    again. *)
Record sequences := mkSeqs {
  users_user_id_seq : Z;
  ipos_ipo_id_seq : Z;
  ongoing_watchlist_watchlist_id_seq : Z;
  past_investments_investment_id_seq : Z
}.

Record database := mkDb {
  data : tables;
  seqs : sequences
}.

Definition empty_db : database :=
  mkDb (mkTables [] [] [] []) (mkSeqs 1 1 1 1).

(** The sequences after a [nextval] on one of them. *)
Definition next_user (sq : sequences) : sequences :=
  mkSeqs (users_user_id_seq sq + 1) (ipos_ipo_id_seq sq)
         (ongoing_watchlist_watchlist_id_seq sq) (past_investments_investment_id_seq sq).
Definition next_ipo (sq : sequences) : sequences :=
  mkSeqs (users_user_id_seq sq) (ipos_ipo_id_seq sq + 1)
         (ongoing_watchlist_watchlist_id_seq sq) (past_investments_investment_id_seq sq).
Definition next_watchlist (sq : sequences) : sequences :=
  mkSeqs (users_user_id_seq sq) (ipos_ipo_id_seq sq)
         (ongoing_watchlist_watchlist_id_seq sq + 1) (past_investments_investment_id_seq sq).
Definition next_investment (sq : sequences) : sequences :=
  mkSeqs (users_user_id_seq sq) (ipos_ipo_id_seq sq)
         (ongoing_watchlist_watchlist_id_seq sq) (past_investments_investment_id_seq sq + 1).

Definition set_users (t : tables) (l : list Users.row) : tables :=
  mkTables l (ipos t) (ongoing_watchlist t) (past_investments t).
Definition set_ipos (t : tables) (l : list IPOs.row) : tables :=
  mkTables (users t) l (ongoing_watchlist t) (past_investments t).
Definition set_ongoing_watchlist (t : tables) (l : list Ongoing_Watchlist.row) : tables :=
  mkTables (users t) (ipos t) l (past_investments t).
Definition set_past_investments (t : tables) (l : list Past_Investments.row) : tables :=
  mkTables (users t) (ipos t) (ongoing_watchlist t) l.

(** ** Exceptions and results *)

Inductive exn :=
| OperationalError                          (* psycopg2.connect cannot reach the store *)
| InterfaceError                            (* use of a closed connection *)
| UniqueViolation (constraint : string)     (* psycopg2.errors.UniqueViolation *)
| NotNullViolation (column : string)        (* psycopg2.errors.NotNullViolation *)
| ForeignKeyViolation (constraint : string) (* psycopg2.errors.ForeignKeyViolation *)
| AttributeError                            (* None has no attribute 'encode' *)
| TypeError                                 (* None is not subscriptable *)
| KeyError (key : string)
| StringDataRightTruncation (width : nat)   (* value too long for type character varying(n) *)
| NumericValueOutOfRange                    (* integer out of range, numeric field overflow *)
| ValueError.                               (* bcrypt refuses the password *)

(** [except psycopg2.IntegrityError] matches by class: the three constraint
    violations are its subclasses. *)
Definition IntegrityError (e : exn) : bool :=
  match e with
  | UniqueViolation _ | NotNullViolation _ | ForeignKeyViolation _ => true
  | _ => false
  end.

Inductive outcome (A : Type) : Type :=
| Return (a : A)
| Raise (e : exn).
Arguments Return {A} a.
Arguments Raise {A} e.

(** ** The circumstances of a call *)

Record env := mkEnv {
  reachable : bool;     (* psycopg2.connect succeeds *)
  now : timestamp;      (* CURRENT_TIMESTAMP *)
  salt : string;        (* bcrypt.gensalt() *)
  scan : list nat       (* the order in which a query comes across its rows:
                           the k-th row it would list has rank [nth k scan 0] *)
}.

(** ** bcrypt *)

Class Bcrypt := {
  hashpw : string -> string -> string;     (* password, salt |-> hash *)
  checkpw : string -> string -> bool;      (* password, hash *)
  refuses : string -> bool                 (* ValueError on this password *)
}.


(** ** A function body: one connection, state and exceptions

    A [session] is the store as one call sees it: the committed tables, the
    sequences, and the uncommitted view of the connection the call holds
    (if it holds one). *)

Record session := mkSession {
  committed : tables;
  counters : sequences;
  conn : option tables
}.

Definition M (A : Type) : Type := session -> session * outcome A.

Definition ret {A} (a : A) : M A := fun s => (s, Return a).

Definition raise {A} (e : exn) : M A := fun s => (s, Raise e).

Definition bind {A B} (m : M A) (k : A -> M B) : M B :=
  fun s =>
    match m s with
    | (s', Return a) => k a s'
    | (s', Raise e) => (s', Raise e)
    end.

(** [try: body  except <class>: handler] *)
Definition try_except {A} (body : M A) (class : exn -> bool) (handler : M A) : M A :=
  fun s =>
    match body s with
    | (s', Return a) => (s', Return a)
    | (s', Raise e) => if class e then handler s' else (s', Raise e)
    end.

Declare Scope py_scope.
Delimit Scope py_scope with py.
Notation "x <- m ;; k" := (bind m (fun x => k))
  (at level 61, m at next level, right associativity) : py_scope.
Notation "m ;; k" := (bind m (fun _ => k))
  (at level 61, right associativity) : py_scope.
Local Open Scope py_scope.

(** A call of a function of the module: it starts without a connection; a
    connection still open when the function returns or raises is dropped,
    and what it had not committed is lost. *)
Definition run_body {A} (body : M A) (db : database) : database * outcome A :=
  match body (mkSession (data db) (seqs db) None) with
  | (s, r) => (mkDb (committed s) (counters s), r)
  end.

(** A statement runs on the connection's view of the tables and on the
    sequences; when it fails the view is as before. *)
Definition statement (A : Type) : Type :=
  tables -> sequences -> sequences * outcome (tables * A).

Definition get_db_connection (e : env) : M unit :=
  fun s =>
    if reachable e
    then (mkSession (committed s) (counters s) (Some (committed s)), Return tt)
    else (s, Raise OperationalError).

Definition execute {A} (q : statement A) : M A :=
  fun s =>
    match conn s with
    | None => (s, Raise InterfaceError)
    | Some view =>
        match q view (counters s) with
        | (sq, Return (view', a)) => (mkSession (committed s) sq (Some view'), Return a)
        | (sq, Raise e) => (mkSession (committed s) sq (Some view), Raise e)
        end
    end.

Definition commit : M unit :=
  fun s =>
    match conn s with
    | None => (s, Raise InterfaceError)
    | Some view => (mkSession view (counters s) (Some view), Return tt)
    end.

Definition rollback : M unit :=
  fun s =>
    match conn s with
    | None => (s, Raise InterfaceError)
    | Some _ => (mkSession (committed s) (counters s) (Some (committed s)), Return tt)
    end.

Definition close : M unit :=
  fun s => (mkSession (committed s) (counters s) None, Return tt).

(** [cursor.fetchone()] and [cursor.fetchall()] on the rows a statement
    produced. *)
Definition fetchone {A} (rows : list A) : option A := hd_error rows.
Definition fetchall {A} (rows : list A) : list A := rows.

(** [cursor.fetchone()[0]] *)
Definition subscript {A} (r : option A) : M A :=
  match r with
  | Some a => ret a
  | None => raise TypeError
  end.

(** [s.encode('utf-8')]: a string is its bytes; None has no such method. *)
Definition encode (s : option string) : M string :=
  match s with
  | Some b => ret b
  | None => raise AttributeError
  end.

Definition decode (b : string) : string := b.

(** Truth value of an argument in [if x:]. *)
Definition truthy {A} (x : option A) : bool :=
  match x with Some _ => true | None => false end.

(** ** SQL *)

(** [column = %s] in a WHERE clause: a comparison with NULL is not true. *)
Definition eq_int (column : Z) (param : option Z) : bool :=
  match param with Some v => column =? v | None => false end.
Definition eq_text (column : string) (param : option string) : bool :=
  match param with Some v => String.eqb column v | None => false end.

Definition not_null {A} (column : string) (v : option A) : outcome A :=
  match v with Some a => Return a | None => Raise (NotNullViolation column) end.

(** *** Coercion of a value to its column

    A statement first coerces each value it is given to the type of its
    column, in the order of the columns; a value that does not fit ends the
    statement there, before a sequence is drawn and before any constraint
    is tested. *)

(** A byte 10xxxxxx continues a character of a UTF-8 text. *)
Definition continues (c : ascii) : bool :=
  match c with Ascii _ _ _ _ _ _ b6 b7 => b7 && negb b6 end.

Fixpoint char_length (s : string) : nat :=
  match s with
  | EmptyString => 0%nat
  | String c r => ((if continues c then 0 else 1) + char_length r)%nat
  end.

(** The first [n] characters of a text, and the rest. *)
Fixpoint split_chars (n : nat) (s : string) : string * string :=
  match s with
  | EmptyString => (EmptyString, EmptyString)
  | String c r =>
      if continues c
      then let p := split_chars n r in (String c (fst p), snd p)
      else match n with
           | O => (EmptyString, s)
           | S n' => let p := split_chars n' r in (String c (fst p), snd p)
           end
  end.

Fixpoint all_spaces (s : string) : bool :=
  match s with
  | EmptyString => true
  | String c r => Ascii.eqb c " " && all_spaces r
  end.

(** VARCHAR(n): a text of more than [n] characters is refused, unless the
    characters in excess are all spaces, which are dropped. *)
Definition varchar (n : nat) (v : option string) : outcome (option string) :=
  match v with
  | None => Return None
  | Some s =>
      let p := split_chars n s in
      if all_spaces (snd p)
      then Return (Some (fst p))
      else Raise (StringDataRightTruncation n)
  end.

(** The text has at most [n] characters (or is NULL). *)
Definition fits (n : nat) (v : option string) : bool :=
  match v with
  | None => true
  | Some s => Nat.leb (char_length s) n
  end.

(** INTEGER: 32 bits. *)
Definition in_integer (z : Z) : bool := (-2147483648 <=? z) && (z <=? 2147483647).

Definition integer (v : option Z) : outcome (option Z) :=
  match v with
  | None => Return None
  | Some z => if in_integer z then Return v else Raise NumericValueOutOfRange
  end.

(** An INTEGER that references a key.  Keys are unbounded here, as the
    sequences that hand them out are; in the store every key is within 32
    bits, so that a value some row has as its key passes. *)
Definition integer_key (keys : list Z) (v : option Z) : outcome (option Z) :=
  match v with
  | None => Return None
  | Some z =>
      if in_integer z || existsb (Z.eqb z) keys
      then Return v
      else Raise NumericValueOutOfRange
  end.

(** Division rounding halves away from zero, as the store rounds a numeric. *)
Definition round_half_away (n q : Z) : Z :=
  Z.sgn n * ((2 * Z.abs n + q) / (2 * q)).

(** The value of a [Decimal] rounded to two decimals, in hundredths. *)
Definition hundredths (d : Decimal.t) : decimal :=
  let k := Decimal.exponent d + 2 in
  if 0 <=? k
  then Decimal.coefficient d * 10 ^ k
  else round_half_away (Decimal.coefficient d) (10 ^ (- k)).

(** DECIMAL(10,2): the value is rounded to two decimals and must then be
    below 10^8 in absolute value. *)
Definition numeric_10_2 (v : option Decimal.t) : outcome (option decimal) :=
  match v with
  | None => Return None
  | Some d =>
      if Z.abs (hundredths d) <? 10 ^ 10
      then Return (Some (hundredths d))
      else Raise NumericValueOutOfRange
  end.


Definition coerced {A B} (sq : sequences) (v : outcome A)
  (k : A -> sequences * outcome B) : sequences * outcome B :=
  match v with
  | Return a => k a
  | Raise x => (sq, Raise x)
  end.

Notation "'coerce' x ':=' v 'on' sq 'in' k" := (coerced sq v (fun x => k))
  (at level 10, x name, k at level 200).

(** INSERT INTO Users (username, email, password_hash, first_name, last_name)
    VALUES (%s, %s, %s, %s, %s) RETURNING user_id *)
Definition INSERT_INTO_Users (e : env)
  (username email password_hash first_name last_name : option string)
  : statement (list Z) :=
  fun t sq =>
    coerce username := varchar 255 username on sq in
    coerce email := varchar 255 email on sq in
    coerce password_hash := varchar 255 password_hash on sq in
    coerce first_name := varchar 255 first_name on sq in
    coerce last_name := varchar 255 last_name on sq in
    let id := users_user_id_seq sq in
    (next_user sq,
     match not_null "username" username with Raise x => Raise x | Return u =>
     match not_null "email" email with Raise x => Raise x | Return m =>
     match not_null "password_hash" password_hash with Raise x => Raise x | Return h =>
       if existsb (fun r => Users.user_id r =? id) (users t)
       then Raise (UniqueViolation "users_pkey")
       else if existsb (fun r => String.eqb (Users.username r) u) (users t)
       then Raise (UniqueViolation "users_username_key")
       else if existsb (fun r => String.eqb (Users.email r) m) (users t)
       then Raise (UniqueViolation "users_email_key")
       else Return (set_users t (users t ++
                      [Users.mk id u m h first_name last_name (Some (now e))]),
                    [id])
     end end end).

(** SELECT * FROM Users WHERE username = %s *)
Definition SELECT_Users_by_username (username : option string)
  : statement (list Users.row) :=
  fun t sq => (sq, Return (t, filter (fun r => eq_text (Users.username r) username) (users t))).

(** ** Schema initialisation *)

(** CREATE TABLE IF NOT EXISTS <table> (...): the columns and constraints
    are those of the row types and of the INSERT statements of this file;
    on a store that has the table the statement does nothing. *)
Definition CREATE_TABLE_IF_NOT_EXISTS (table : string) : statement unit :=
  fun t sq => (sq, Return (t, tt)).

Definition init_db (e : env) : database -> database * outcome unit :=
  run_body (
    get_db_connection e ;;
    execute (CREATE_TABLE_IF_NOT_EXISTS "Users") ;;
    execute (CREATE_TABLE_IF_NOT_EXISTS "IPOs") ;;
    execute (CREATE_TABLE_IF_NOT_EXISTS "Ongoing_Watchlist") ;;
    execute (CREATE_TABLE_IF_NOT_EXISTS "Past_Investments") ;;
    commit ;;
    close ;;
    ret tt).

(** ** User related functions *)

Section WithBcrypt.
Context {B : Bcrypt}.

(** [bcrypt.hashpw(password, salt)] *)
Definition bcrypt_hashpw (password s : string) : M string :=
  if refuses password then raise ValueError else ret (hashpw password s).

Definition create_user (e : env)
  (username email password first_name last_name : option string)
  : database -> database * outcome (option Z) :=
  run_body (
    get_db_connection e ;;
    pw <- encode password ;;
    password_hash <- bcrypt_hashpw pw (salt e) ;;
    try_except
      (rows <- execute (INSERT_INTO_Users e username email
                          (Some (decode password_hash)) first_name last_name) ;;
       user_id <- subscript (fetchone rows) ;;
       commit ;;
       close ;;
       ret (Some user_id))
      IntegrityError
      (rollback ;;
       close ;;
       ret None)).

(** [bcrypt.checkpw(password, hashed)] *)
Definition bcrypt_checkpw (password hashed : string) : M bool :=
  if refuses password then raise ValueError else ret (checkpw password hashed).

Definition authenticate_user (e : env) (username password : option string)
  : database -> database * outcome (option Users.row) :=
  run_body (
    get_db_connection e ;;
    rows <- execute (SELECT_Users_by_username username) ;;
    match fetchone rows with
    | None => close ;; ret None
    | Some user =>
        pw <- encode password ;;
        let hashed := Users.password_hash user in
        ok <- bcrypt_checkpw pw hashed ;;
        if ok
        then close ;; ret (Some user)
        else close ;; ret None
    end).

End WithBcrypt.

(** ** IPO related functions *)

(** The [ipo_data] argument of [store_ipo]: a dict in which a key is
    missing, or is mapped to None or to a value of the column's type. *)
Inductive slot (T : Type) : Type :=
| Missing
| Present (v : option T).
Arguments Missing {T}.
Arguments Present {T} v.

Module Ipo_Data.
Record dict := mk {
  name : slot string;
  symbol : slot string;
  company_name : slot string;
  offering_price : slot Decimal.t;
  total_shares : slot Z;
  ipo_date : slot date;
  status : slot string;
  description : slot string
}.
End Ipo_Data.

(** [d[key]] *)
Definition getitem {T} (key : string) (s : slot T) : M (option T) :=
  match s with
  | Present v => ret v
  | Missing => raise (KeyError key)
  end.

(** [d.get(key, default)]; [d.get(key)] is [d.get(key, None)]. *)
Definition get {T} (s : slot T) (default : option T) : option T :=
  match s with
  | Present v => v
  | Missing => default
  end.

(** INSERT INTO IPOs (name, symbol, company_name, offering_price,
    total_shares, ipo_date, status, description)
    VALUES (%s, %s, %s, %s, %s, %s, %s, %s) *)
Definition INSERT_INTO_IPOs (e : env)
  (name symbol company_name : option string) (offering_price : option Decimal.t)
  (total_shares : option Z) (ipo_date : option date)
  (status description : option string)
  : statement unit :=
  fun t sq =>
    coerce name := varchar 255 name on sq in
    coerce symbol := varchar 20 symbol on sq in
    coerce company_name := varchar 255 company_name on sq in
    coerce offering_price := numeric_10_2 offering_price on sq in
    coerce total_shares := integer total_shares on sq in
    coerce status := varchar 20 status on sq in
    let id := ipos_ipo_id_seq sq in
    (next_ipo sq,
     match not_null "name" name with Raise x => Raise x | Return n =>
     match not_null "symbol" symbol with Raise x => Raise x | Return s =>
       if existsb (fun r => IPOs.ipo_id r =? id) (ipos t)
       then Raise (UniqueViolation "ipos_pkey")
       else Return (set_ipos t (ipos t ++
                      [IPOs.mk id n s company_name offering_price total_shares
                               ipo_date status description
                               (Some (now e)) (Some (now e))]),
                    tt)
     end end).

(** SELECT * FROM IPOs WHERE ipo_id = %s *)
Definition SELECT_IPOs_by_ipo_id (ipo_id : option Z) : statement (list IPOs.row) :=
  fun t sq => (sq, Return (t, filter (fun r => eq_int (IPOs.ipo_id r) ipo_id) (ipos t))).

Definition store_ipo (e : env) (ipo_data : Ipo_Data.dict)
  : database -> database * outcome bool :=
  run_body (
    get_db_connection e ;;
    name <- getitem "name" (Ipo_Data.name ipo_data) ;;
    symbol <- getitem "symbol" (Ipo_Data.symbol ipo_data) ;;
    execute (INSERT_INTO_IPOs e
               name
               symbol
               (get (Ipo_Data.company_name ipo_data) None)
               (get (Ipo_Data.offering_price ipo_data) None)
               (get (Ipo_Data.total_shares ipo_data) None)
               (get (Ipo_Data.ipo_date ipo_data) None)
               (get (Ipo_Data.status ipo_data) (Some "upcoming"))
               (get (Ipo_Data.description ipo_data) None)) ;;
    commit ;;
    close ;;
    ret true).

Definition get_ipo (e : env) (ipo_id : option Z)
  : database -> database * outcome (option IPOs.row) :=
  run_body (
    get_db_connection e ;;
    rows <- execute (SELECT_IPOs_by_ipo_id ipo_id) ;;
    let ipo := fetchone rows in
    close ;;
    ret ipo).

(** ** Ongoing watchlist functions *)

(** ORDER BY: a stable insertion sort under the order of the clause, of
    the rows in the order the query came across them ([arrange]).  The store
    leaves the order of rows with equal keys open: it is the order of the
    scan, which the call does not control. *)
Fixpoint insert_by {A} (leb : A -> A -> bool) (x : A) (l : list A) : list A :=
  match l with
  | [] => [x]
  | y :: l' => if leb x y then x :: l else y :: insert_by leb x l'
  end.

Definition order_by {A} (leb : A -> A -> bool) (l : list A) : list A :=
  fold_right (insert_by leb) [] l.

(** The rows [l] in the order of a scan: by rank, rows of equal rank in the
    order of [l].  Every order of [l] is the order of some scan. *)
Definition arrange {A} (ranks : list nat) (l : list A) : list A :=
  map snd
    (order_by (fun a b => Nat.leb (fst a) (fst b))
       (combine (map (fun k => nth k ranks 0%nat) (seq 0 (List.length l))) l)).

(** ASC on a nullable column: NULLs come last. *)
Definition asc (a b : option Z) : bool :=
  match a, b with
  | _, None => true
  | None, Some _ => false
  | Some x, Some y => x <=? y
  end.

(** DESC on a nullable column: NULLs come first. *)
Definition desc (a b : option Z) : bool := asc b a.

(** INSERT INTO Ongoing_Watchlist (user_id, ipo_id, expiry_date)
    VALUES (%s, %s, %s) RETURNING watchlist_id *)
Definition INSERT_INTO_Ongoing_Watchlist
  (user_id ipo_id : option Z) (expiry_date : option date)
  : statement (list Z) :=
  fun t sq =>
    coerce user_id := integer_key (map Users.user_id (users t)) user_id on sq in
    coerce ipo_id := integer_key (map IPOs.ipo_id (ipos t)) ipo_id on sq in
    let id := ongoing_watchlist_watchlist_id_seq sq in
    (next_watchlist sq,
     match not_null "user_id" user_id with Raise x => Raise x | Return u =>
     match not_null "ipo_id" ipo_id with Raise x => Raise x | Return i =>
       if existsb (fun r => Ongoing_Watchlist.watchlist_id r =? id) (ongoing_watchlist t)
       then Raise (UniqueViolation "ongoing_watchlist_pkey")
       else if negb (existsb (fun r => Users.user_id r =? u) (users t))
       then Raise (ForeignKeyViolation "ongoing_watchlist_user_id_fkey")
       else if negb (existsb (fun r => IPOs.ipo_id r =? i) (ipos t))
       then Raise (ForeignKeyViolation "ongoing_watchlist_ipo_id_fkey")
       else Return (set_ongoing_watchlist t (ongoing_watchlist t ++
                      [Ongoing_Watchlist.mk id u i expiry_date]),
                    [id])
     end end).

(** DELETE FROM Ongoing_Watchlist WHERE watchlist_id = %s AND user_id = %s *)
Definition DELETE_FROM_Ongoing_Watchlist (watchlist_id user_id : option Z)
  : statement unit :=
  fun t sq =>
    (sq, Return (set_ongoing_watchlist t
                   (filter (fun r => negb (eq_int (Ongoing_Watchlist.watchlist_id r) watchlist_id
                                           && eq_int (Ongoing_Watchlist.user_id r) user_id))
                           (ongoing_watchlist t)),
                 tt)).

(** FROM Ongoing_Watchlist AS ow JOIN IPOs AS i ON ow.ipo_id = i.ipo_id
    WHERE ow.user_id = %s *)
Definition watchlist_join (t : tables) (user_id : option Z) : list Watchlist_Item.row :=
  flat_map
    (fun ow =>
       map (fun i => Watchlist_Item.mk (Ongoing_Watchlist.watchlist_id ow)
                                       (Ongoing_Watchlist.expiry_date ow) i)
           (filter (fun i => Ongoing_Watchlist.ipo_id ow =? IPOs.ipo_id i) (ipos t)))
    (filter (fun ow => eq_int (Ongoing_Watchlist.user_id ow) user_id) (ongoing_watchlist t)).

Definition by_ipo_date_asc (a b : Watchlist_Item.row) : bool :=
  asc (IPOs.ipo_date (Watchlist_Item.ipo a)) (IPOs.ipo_date (Watchlist_Item.ipo b)).

(** SELECT ow.watchlist_id, ow.expiry_date, i.* FROM ... WHERE ow.user_id = %s
    ORDER BY i.ipo_date ASC *)
Definition SELECT_watchlist (e : env) (user_id : option Z)
  : statement (list Watchlist_Item.row) :=
  fun t sq =>
    (sq, Return (t, order_by by_ipo_date_asc
                      (arrange (scan e) (watchlist_join t user_id)))).

Definition add_to_watchlist (e : env) (user_id ipo_id : option Z) (expiry_date : option date)
  : database -> database * outcome Z :=
  run_body (
    get_db_connection e ;;
    rows <- execute (INSERT_INTO_Ongoing_Watchlist user_id ipo_id expiry_date) ;;
    watchlist_id <- subscript (fetchone rows) ;;
    commit ;;
    close ;;
    ret watchlist_id).

Definition remove_from_watchlist (e : env) (watchlist_id user_id : option Z)
  : database -> database * outcome bool :=
  run_body (
    get_db_connection e ;;
    execute (DELETE_FROM_Ongoing_Watchlist watchlist_id user_id) ;;
    commit ;;
    close ;;
    ret true).

Definition get_user_watchlist (e : env) (user_id : option Z)
  : database -> database * outcome (list Watchlist_Item.row) :=
  run_body (
    get_db_connection e ;;
    rows <- execute (SELECT_watchlist e user_id) ;;
    let watchlist := fetchall rows in
    close ;;
    ret watchlist).

(** ** Past investments functions *)

(** INSERT INTO Past_Investments (user_id, ipo_id, shares_purchased,
    purchase_price, sold_date, status) VALUES (%s, %s, %s, %s, %s, %s)
    RETURNING investment_id

    [sold_date] and [status] are in the column list, so the row takes the
    values bound to them, NULL included, and not the columns' defaults. *)
Definition INSERT_INTO_Past_Investments
  (user_id ipo_id shares_purchased : option Z) (purchase_price : option Decimal.t)
  (sold_date : option timestamp) (status : option string)
  : statement (list Z) :=
  fun t sq =>
    coerce user_id := integer_key (map Users.user_id (users t)) user_id on sq in
    coerce ipo_id := integer_key (map IPOs.ipo_id (ipos t)) ipo_id on sq in
    coerce shares_purchased := integer shares_purchased on sq in
    coerce purchase_price := numeric_10_2 purchase_price on sq in
    coerce status := varchar 20 status on sq in
    let id := past_investments_investment_id_seq sq in
    (next_investment sq,
     match not_null "user_id" user_id with Raise x => Raise x | Return u =>
     match not_null "ipo_id" ipo_id with Raise x => Raise x | Return i =>
     match not_null "shares_purchased" shares_purchased with Raise x => Raise x | Return n =>
     match not_null "purchase_price" purchase_price with Raise x => Raise x | Return p =>
       if existsb (fun r => Past_Investments.investment_id r =? id) (past_investments t)
       then Raise (UniqueViolation "past_investments_pkey")
       else if negb (existsb (fun r => Users.user_id r =? u) (users t))
       then Raise (ForeignKeyViolation "past_investments_user_id_fkey")
       else if negb (existsb (fun r => IPOs.ipo_id r =? i) (ipos t))
       then Raise (ForeignKeyViolation "past_investments_ipo_id_fkey")
       else Return (set_past_investments t (past_investments t ++
                      [Past_Investments.mk id u i n p sold_date status]),
                    [id])
     end end end end).

Definition matches (investment_id user_id : option Z) (r : Past_Investments.row) : bool :=
  eq_int (Past_Investments.investment_id r) investment_id
  && eq_int (Past_Investments.user_id r) user_id.

(** SET status = %s  and  SET sold_date = %s  on one row *)
Definition set_status (status : option string) (r : Past_Investments.row)
  : Past_Investments.row :=
  Past_Investments.mk (Past_Investments.investment_id r) (Past_Investments.user_id r)
    (Past_Investments.ipo_id r) (Past_Investments.shares_purchased r)
    (Past_Investments.purchase_price r) (Past_Investments.sold_date r) status.

Definition set_sold_date (sold_date : option timestamp) (r : Past_Investments.row)
  : Past_Investments.row :=
  Past_Investments.mk (Past_Investments.investment_id r) (Past_Investments.user_id r)
    (Past_Investments.ipo_id r) (Past_Investments.shares_purchased r)
    (Past_Investments.purchase_price r) sold_date (Past_Investments.status r).

(** UPDATE Past_Investments SET status = %s, sold_date = %s
    WHERE investment_id = %s AND user_id = %s *)
Definition UPDATE_status_sold_date
  (status : option string) (sold_date : option timestamp) (investment_id user_id : option Z)
  : statement unit :=
  fun t sq =>
    coerce status := varchar 20 status on sq in
    (sq, Return (set_past_investments t
                   (map (fun r =>
                           if matches investment_id user_id r
                           then set_sold_date sold_date (set_status status r)
                           else r)
                        (past_investments t)),
                 tt)).

(** UPDATE Past_Investments SET status = %s
    WHERE investment_id = %s AND user_id = %s *)
Definition UPDATE_status
  (status : option string) (investment_id user_id : option Z)
  : statement unit :=
  fun t sq =>
    coerce status := varchar 20 status on sq in
    (sq, Return (set_past_investments t
                   (map (fun r =>
                           if matches investment_id user_id r
                           then set_status status r
                           else r)
                        (past_investments t)),
                 tt)).

(** FROM Past_Investments AS pi JOIN IPOs AS i ON pi.ipo_id = i.ipo_id
    WHERE pi.user_id = %s *)
Definition investments_join (t : tables) (user_id : option Z) : list Investment_Item.row :=
  flat_map
    (fun pi =>
       map (fun i => Investment_Item.mk pi (IPOs.name i) (IPOs.symbol i) (IPOs.ipo_date i))
           (filter (fun i => Past_Investments.ipo_id pi =? IPOs.ipo_id i) (ipos t)))
    (filter (fun pi => eq_int (Past_Investments.user_id pi) user_id) (past_investments t)).

Definition by_sold_date_desc (a b : Investment_Item.row) : bool :=
  desc (Past_Investments.sold_date (Investment_Item.investment a))
       (Past_Investments.sold_date (Investment_Item.investment b)).

(** SELECT pi.*, i.name AS ipo_name, i.symbol, i.ipo_date FROM ...
    WHERE pi.user_id = %s ORDER BY pi.sold_date DESC *)
Definition SELECT_investments (e : env) (user_id : option Z)
  : statement (list Investment_Item.row) :=
  fun t sq =>
    (sq, Return (t, order_by by_sold_date_desc
                      (arrange (scan e) (investments_join t user_id)))).

(** [sold_date=None] and [status='pending'] are the defaults of the
    signature; a caller that omits them passes [None] and [Some "pending"]. *)
Definition add_investment (e : env)
  (user_id ipo_id shares_purchased : option Z) (purchase_price : option Decimal.t)
  (sold_date : option timestamp) (status : option string)
  : database -> database * outcome Z :=
  run_body (
    get_db_connection e ;;
    rows <- execute (INSERT_INTO_Past_Investments user_id ipo_id shares_purchased
                       purchase_price sold_date status) ;;
    investment_id <- subscript (fetchone rows) ;;
    commit ;;
    close ;;
    ret investment_id).

Definition update_investment_status (e : env)
  (investment_id user_id : option Z) (status : option string) (sold_date : option timestamp)
  : database -> database * outcome bool :=
  run_body (
    get_db_connection e ;;
    (if truthy sold_date
     then execute (UPDATE_status_sold_date status sold_date investment_id user_id)
     else execute (UPDATE_status status investment_id user_id)) ;;
    commit ;;
    close ;;
    ret true).

Definition get_user_investments (e : env) (user_id : option Z)
  : database -> database * outcome (list Investment_Item.row) :=
  run_body (
    get_db_connection e ;;
    rows <- execute (SELECT_investments e user_id) ;;
    let investments := fetchall rows in
    close ;;
    ret investments).

(** ** Arguments that fit their columns *)





(** ** The public operations as data, and sequences of calls *)

Inductive operation :=
| Init_db
| Create_user (username email password first_name last_name : option string)
| Authenticate_user (username password : option string)
| Store_ipo (ipo_data : Ipo_Data.dict)
| Get_ipo (ipo_id : option Z)
| Add_to_watchlist (user_id ipo_id : option Z) (expiry_date : option date)
| Remove_from_watchlist (watchlist_id user_id : option Z)
| Get_user_watchlist (user_id : option Z)
| Add_investment (user_id ipo_id shares_purchased : option Z)
                 (purchase_price : option Decimal.t)
                 (sold_date : option timestamp) (status : option string)
| Update_investment_status (investment_id user_id : option Z) (status : option string)
                           (sold_date : option timestamp)
| Get_user_investments (user_id : option Z).

(** The store after one call, whatever the call returned or raised. *)
Definition perform {B : Bcrypt} (c : env * operation) (db : database) : database :=
  let e := fst c in
  match snd c with
  | Init_db => fst (init_db e db)
  | Create_user u m p f l => fst (create_user e u m p f l db)
  | Authenticate_user u p => fst (authenticate_user e u p db)
  | Store_ipo d => fst (store_ipo e d db)
  | Get_ipo i => fst (get_ipo e i db)
  | Add_to_watchlist u i x => fst (add_to_watchlist e u i x db)
  | Remove_from_watchlist w u => fst (remove_from_watchlist e w u db)
  | Get_user_watchlist u => fst (get_user_watchlist e u db)
  | Add_investment u i n p d s => fst (add_investment e u i n p d s db)
  | Update_investment_status i u s d => fst (update_investment_status e i u s d db)
  | Get_user_investments u => fst (get_user_investments e u db)
  end.

Definition perform_all {B : Bcrypt} (cs : list (env * operation)) (db : database) : database :=
  fold_left (fun d c => perform c d) cs db.

(** The exception a call ended with, if it raised one. *)
Definition raised {A} (r : outcome A) : option exn :=
  match r with
  | Return _ => None
  | Raise x => Some x
  end.

Definition exception_of {B : Bcrypt} (c : env * operation) (db : database) : option exn :=
  let e := fst c in
  match snd c with
  | Init_db => raised (snd (init_db e db))
  | Create_user u m p f l => raised (snd (create_user e u m p f l db))
  | Authenticate_user u p => raised (snd (authenticate_user e u p db))
  | Store_ipo d => raised (snd (store_ipo e d db))
  | Get_ipo i => raised (snd (get_ipo e i db))
  | Add_to_watchlist u i x => raised (snd (add_to_watchlist e u i x db))
  | Remove_from_watchlist w u => raised (snd (remove_from_watchlist e w u db))
  | Get_user_watchlist u => raised (snd (get_user_watchlist e u db))
  | Add_investment u i n p d s => raised (snd (add_investment e u i n p d s db))
  | Update_investment_status i u s d => raised (snd (update_investment_status e i u s d db))
  | Get_user_investments u => raised (snd (get_user_investments e u db))
  end.

(** ** The constraints of the schema as an invariant of the store *)

Record wf (db : database) : Prop := mkWf {
  users_pkey : NoDup (map Users.user_id (users (data db)));
  users_user_id_below :
    Forall (fun r => Users.user_id r < users_user_id_seq (seqs db)) (users (data db));
  users_username_key : NoDup (map Users.username (users (data db)));
  users_email_key : NoDup (map Users.email (users (data db)));
  ipos_pkey : NoDup (map IPOs.ipo_id (ipos (data db)));
  ipos_ipo_id_below :
    Forall (fun r => IPOs.ipo_id r < ipos_ipo_id_seq (seqs db)) (ipos (data db));
  ongoing_watchlist_pkey :
    NoDup (map Ongoing_Watchlist.watchlist_id (ongoing_watchlist (data db)));
  ongoing_watchlist_watchlist_id_below :
    Forall (fun r => Ongoing_Watchlist.watchlist_id r
                     < ongoing_watchlist_watchlist_id_seq (seqs db))
           (ongoing_watchlist (data db));
  ongoing_watchlist_user_id_fkey :
    Forall (fun r => In (Ongoing_Watchlist.user_id r) (map Users.user_id (users (data db))))
           (ongoing_watchlist (data db));
  ongoing_watchlist_ipo_id_fkey :
    Forall (fun r => In (Ongoing_Watchlist.ipo_id r) (map IPOs.ipo_id (ipos (data db))))
           (ongoing_watchlist (data db));
  past_investments_pkey :
    NoDup (map Past_Investments.investment_id (past_investments (data db)));
  past_investments_investment_id_below :
    Forall (fun r => Past_Investments.investment_id r
                     < past_investments_investment_id_seq (seqs db))
           (past_investments (data db));
  past_investments_user_id_fkey :
    Forall (fun r => In (Past_Investments.user_id r) (map Users.user_id (users (data db))))
           (past_investments (data db));
  past_investments_ipo_id_fkey :
    Forall (fun r => In (Past_Investments.ipo_id r) (map IPOs.ipo_id (ipos (data db))))
           (past_investments (data db))
}.

(** [x] comes before [y] in [l]. *)
Definition precedes {A} (x y : A) (l : list A) : Prop :=
  exists l1 l2 l3, l = l1 ++ x :: l2 ++ y :: l3.

(** [l'] is [l] followed by further elements. *)
Definition extends {A} (l l' : list A) : Prop := exists k, l' = l ++ k.

(** The columns of an investment that no UPDATE of the module assigns. *)
Definition fixed_columns (r : Past_Investments.row) : Z * Z * Z * Z * decimal :=
  (Past_Investments.investment_id r, Past_Investments.user_id r,
   Past_Investments.ipo_id r, Past_Investments.shares_purchased r,
   Past_Investments.purchase_price r).

(** ** Concrete instances used in the examples *)

(** A stand-in for bcrypt on which the functions can be run: the hash is
    the salt followed by the password, and a password checks against a hash
    that ends with it after a salt of the same length. *)
Definition demo_hashpw (password s : string) : string := s ++ password.

Definition demo_checkpw (password hashed : string) : bool :=
  String.eqb password
    (substring (String.length hashed - String.length password)
               (String.length password) hashed)
  && Nat.leb (String.length password) (String.length hashed).

Definition demo_bcrypt : Bcrypt :=
  {| hashpw := demo_hashpw;
     checkpw := demo_checkpw;
     refuses := fun password => Nat.ltb 72 (String.length password) |}.

Definition env0 : env := mkEnv true 1000 "$2b$12$abcdefghijklmnopqrstuv" [].
Definition env1 : env := mkEnv true 2000 "$2b$12$ABCDEFGHIJKLMNOPQRSTUV" [].
Definition env_down : env := mkEnv false 3000 "$2b$12$abcdefghijklmnopqrstuv" [].

(** As [env1], with a scan that comes across the second row first. *)
Definition env2 : env := mkEnv true 2000 "$2b$12$ABCDEFGHIJKLMNOPQRSTUV" [1%nat; 0%nat].


Definition acme : Ipo_Data.dict :=
  Ipo_Data.mk (Present (Some "Acme")) (Present (Some "ACME")) (Present (Some "Acme Corp"))
              (Present (Some (cents 1250))) (Present (Some 1000000)) (Present (Some 20100))
              Missing (Present (Some "Anvils")).

Definition bolt : Ipo_Data.dict :=
  Ipo_Data.mk (Present (Some "Bolt")) (Present (Some "BOLT")) Missing
              Missing Missing (Present (Some 20050))
              (Present None) Missing.

(** A store with two users, two IPOs (Acme dated after Bolt), a watchlist
    entry of alice on each, one of bob, and an investment of alice. *)
Definition demo_calls : list (env * operation) :=
  [ (env0, Create_user (Some "alice") (Some "alice@example.org") (Some "wonderland") None None);
    (env0, Create_user (Some "bob") (Some "bob@example.org") (Some "builder") (Some "Bob") None);
    (env0, Store_ipo acme);
    (env0, Store_ipo bolt);
    (env1, Add_to_watchlist (Some 1) (Some 1) None);
    (env1, Add_to_watchlist (Some 1) (Some 2) (Some 20049));
    (env1, Add_to_watchlist (Some 2) (Some 1) None);
    (env1, Add_investment (Some 1) (Some 1) (Some 10) (Some (cents 1250)) None
                          (Some "pending")) ].

Definition demo_db : database := Eval vm_compute in
  @perform_all demo_bcrypt demo_calls empty_db.

(** ** Tactics: unfolding a function body and splitting on its tests *)

Ltac run_py :=
  unfold run_body, try_except, bind, get_db_connection, execute, commit, rollback,
    close, subscript, fetchone, fetchall, encode, decode, getitem, ret, raise;
  simpl.

Ltac unfold_ops :=
  unfold perform, init_db, CREATE_TABLE_IF_NOT_EXISTS, create_user, authenticate_user,
    store_ipo, get_ipo, add_to_watchlist,
    remove_from_watchlist, get_user_watchlist, add_investment, update_investment_status,
    get_user_investments, INSERT_INTO_Users, SELECT_Users_by_username, INSERT_INTO_IPOs,
    SELECT_IPOs_by_ipo_id, INSERT_INTO_Ongoing_Watchlist, DELETE_FROM_Ongoing_Watchlist,
    SELECT_watchlist, INSERT_INTO_Past_Investments, UPDATE_status_sold_date, UPDATE_status,
    SELECT_investments, not_null, truthy, bcrypt_hashpw, bcrypt_checkpw, coerced.

Ltac break_if :=
  match goal with
  | |- context [if ?c then _ else _] => destruct c eqn:?
  | |- context [match ?c with Some _ => _ | None => _ end] => destruct c eqn:?
  | |- context [match ?c with Present _ => _ | Missing => _ end] => destruct c eqn:?
  | |- context [match ?c with Return _ => _ | Raise _ => _ end] => destruct c eqn:?
  | |- context [match ?c with Return _ => _ | Raise x => @?k x end] => destruct c eqn:?
  | |- context [match ?c with [] => _ | _ :: _ => _ end] => destruct c eqn:?
  end.

Ltac wf_by_computation :=
  constructor; simpl;
  repeat (first [ apply NoDup_nil | apply NoDup_cons | apply Forall_nil | apply Forall_cons ]);
  simpl; try lia; intuition (try discriminate; try lia).

(** * Properties *)

(** ** Lists: membership tests, keys, filters *)

Lemma existsb_false_forall {A} (f : A -> bool) (l : list A) :
  existsb f l = false <-> (forall x, In x l -> f x = false).
Proof.
  induction l as [|a l IH]; simpl.
  - split; [intros _ x [] | reflexivity].
  - rewrite orb_false_iff, IH. split.
    + intros [Ha Hl] x [<-|Hx]; auto.
    + intros H. split; [apply H; now left | intros x Hx; apply H; now right].
Qed.

Lemma existsb_true_exists {A} (f : A -> bool) (l : list A) :
  existsb f l = true <-> (exists x, In x l /\ f x = true).
Proof. apply existsb_exists. Qed.

Lemma below_not_taken {A} (key : A -> Z) (next : Z) (l : list A) :
  Forall (fun r => key r < next) l ->
  existsb (fun r => key r =? next) l = false.
Proof.
  intros H. apply existsb_false_forall. intros x Hx.
  rewrite Forall_forall in H. specialize (H x Hx). apply Z.eqb_neq. lia.
Qed.

Lemma filter_none {A} (f : A -> bool) (l : list A) :
  (forall x, In x l -> f x = false) -> filter f l = [].
Proof.
  induction l as [|a l IH]; simpl; intros H; [reflexivity|].
  rewrite (H a (or_introl eq_refl)). apply IH. intros x Hx. apply H. now right.
Qed.

Lemma filter_all {A} (f : A -> bool) (l : list A) :
  (forall x, In x l -> f x = true) -> filter f l = l.
Proof.
  induction l as [|a l IH]; simpl; intros H; [reflexivity|].
  rewrite (H a (or_introl eq_refl)). f_equal. apply IH. intros x Hx. apply H. now right.
Qed.


(** Under a key without duplicates, the rows with the key of [r] are [r]
    alone. *)
Lemma filter_key_unique {A K} (key : A -> K) (eqb : K -> K -> bool) (l : list A) (r : A) :
  (forall a b, eqb a b = true <-> a = b) ->
  NoDup (map key l) -> In r l ->
  filter (fun x => eqb (key x) (key r)) l = [r].
Proof.
  intros Heq. induction l as [|a l IH]; simpl; intros Hnd Hin; [contradiction|].
  inversion Hnd as [|? ? Hnotin Hnd']; subst.
  destruct Hin as [->|Hin].
  - replace (eqb (key r) (key r)) with true by (symmetry; now apply Heq).
    f_equal. apply filter_none. intros x Hx.
    destruct (eqb (key x) (key r)) eqn:E; [|reflexivity].
    apply Heq in E. exfalso. apply Hnotin. rewrite <- E. now apply in_map.
  - destruct (eqb (key a) (key r)) eqn:E.
    + apply Heq in E. exfalso. apply Hnotin. rewrite E. now apply in_map.
    + now apply IH.
Qed.


(** ** Calls that cannot reach the store *)


(** ** Values that fit their columns *)

Lemma split_chars_fits (n : nat) (s : string) :
  (char_length s <= n)%nat -> split_chars n s = (s, EmptyString).
Proof.
  revert n. induction s as [|c r IH]; simpl; intros n H; [reflexivity|].
  destruct (continues c); simpl in *.
  - now rewrite (IH n H).
  - destruct n as [|n]; [lia|]. rewrite (IH n); [reflexivity | lia].
Qed.

Lemma varchar_fits (n : nat) (v : option string) :
  fits n v = true -> varchar n v = Return v.
Proof.
  destruct v as [s|]; simpl; [|reflexivity].
  intros H. apply Nat.leb_le in H. now rewrite (split_chars_fits _ H).
Qed.


Lemma integer_key_known (keys : list Z) (z : Z) :
  In z keys -> integer_key keys (Some z) = Return (Some z).
Proof.
  intros H. simpl.
  replace (existsb (Z.eqb z) keys) with true; [now rewrite orb_true_r|].
  symmetry. apply existsb_true_exists. exists z. split; [assumption | apply Z.eqb_refl].
Qed.





Arguments varchar n v : simpl never.
Arguments integer v : simpl never.
Arguments integer_key keys v : simpl never.
Arguments numeric_10_2 v : simpl never.

(** ** create_user *)





Lemma wf_empty_db : wf empty_db.
Proof. wf_by_computation. Qed.

Lemma wf_demo_db : wf demo_db.
Proof. wf_by_computation. Qed.






(** ** create_user: which failures come back as [None]

    [except psycopg2.IntegrityError] catches the whole class.  With a
    [username] (or [email]) that is [None] the INSERT fails on NOT NULL, the
    handler takes it, and the caller gets the [None] that stands for
    "username or email already exists". *)

Lemma create_user_null_username {B : Bcrypt} (e : env) (db : database)
  (m : option string) (p : string) (f l : option string) :
  reachable e = true -> refuses p = false ->
  fits 255 m = true -> fits 255 (Some (hashpw p (salt e))) = true ->
  fits 255 f = true -> fits 255 l = true ->
  create_user e None m (Some p) f l db = (mkDb (data db) (next_user (seqs db)), Return None).
Proof.
  intros He Hp Hm Hh Hf Hl.
  unfold create_user, bcrypt_hashpw, INSERT_INTO_Users, coerced, decode. run_py.
  rewrite He. simpl. rewrite Hp. simpl.
  rewrite !varchar_fits by (assumption || reflexivity). reflexivity.
Qed.

Lemma create_user_null_email {B : Bcrypt} (e : env) (db : database)
  (u p : string) (f l : option string) :
  reachable e = true -> refuses p = false ->
  fits 255 (Some u) = true -> fits 255 (Some (hashpw p (salt e))) = true ->
  fits 255 f = true -> fits 255 l = true ->
  create_user e (Some u) None (Some p) f l db
  = (mkDb (data db) (next_user (seqs db)), Return None).
Proof.
  intros He Hp Hu Hh Hf Hl.
  unfold create_user, bcrypt_hashpw, INSERT_INTO_Users, coerced, decode. run_py.
  rewrite He. simpl. rewrite Hp. simpl.
  rewrite !varchar_fits by (assumption || reflexivity). reflexivity.
Qed.



(** What [create_user] lets through is never of the class it catches. *)
Lemma create_user_raises_no_IntegrityError {B : Bcrypt} (e : env) (db db' : database)
  (u m p f l : option string) (x : exn) :
  create_user e u m p f l db = (db', Raise x) -> IntegrityError x = false.
Proof.
  unfold create_user, bcrypt_hashpw, INSERT_INTO_Users, coerced, not_null. run_py.
  repeat (break_if; simpl); try discriminate; intros [= _ <-];
    first [reflexivity | assumption].
Qed.

(** C2.  At a call with no username ([None]) on a store that can be
    reached, the INSERT of [create_user] fails with a NOT NULL violation, and
    [create_user] does not raise: it returns [None], with the tables as
    before. *)
Theorem create_user_swallows_not_null_violation :
  snd (INSERT_INTO_Users env1 None (Some "carol@example.org")
         (Some (@hashpw demo_bcrypt "secret" (salt env1))) None None
         (data demo_db) (seqs demo_db))
  = Raise (NotNullViolation "username") /\
  @create_user demo_bcrypt env1 None (Some "carol@example.org") (Some "secret") None None
    demo_db
  = (mkDb (data demo_db) (next_user (seqs demo_db)), Return None).
Proof. split; reflexivity. Qed.

(** ** Every call keeps the constraints of the schema *)

Lemma NoDup_map_snoc {A K} (key : A -> K) (l : list A) (x : A) :
  NoDup (map key l) -> ~ In (key x) (map key l) -> NoDup (map key (l ++ [x])).
Proof.
  intros Hnd Hx. rewrite map_app. simpl.
  apply NoDup_app; [assumption | repeat constructor; intros [] | ].
  intros a Ha [<-|[]]. contradiction.
Qed.

Lemma key_not_taken {A} (key : A -> Z) (id : Z) (l : list A) :
  existsb (fun r => key r =? id) l = false -> ~ In id (map key l).
Proof.
  intros H Hin. apply in_map_iff in Hin as (r & <- & Hr).
  rewrite existsb_false_forall in H. specialize (H r Hr). simpl in H.
  now rewrite Z.eqb_refl in H.
Qed.

Lemma text_not_taken {A} (key : A -> string) (v : string) (l : list A) :
  existsb (fun r => String.eqb (key r) v) l = false -> ~ In v (map key l).
Proof.
  intros H Hin. apply in_map_iff in Hin as (r & <- & Hr).
  rewrite existsb_false_forall in H. specialize (H r Hr). simpl in H.
  now rewrite String.eqb_refl in H.
Qed.

Lemma key_present {A} (key : A -> Z) (id : Z) (l : list A) :
  negb (existsb (fun r => key r =? id) l) = false -> In id (map key l).
Proof.
  intros H. apply negb_false_iff, existsb_true_exists in H as (r & Hr & E).
  apply Z.eqb_eq in E. subst. now apply in_map.
Qed.

Lemma below_snoc {A} (key : A -> Z) (next : Z) (l : list A) (x : A) :
  Forall (fun r => key r < next) l -> key x = next ->
  Forall (fun r => key r < next + 1) (l ++ [x]).
Proof.
  intros H E. apply Forall_app. split.
  - eapply Forall_impl; [|exact H]. simpl. intros; lia.
  - repeat constructor. lia.
Qed.

Lemma below_next {A} (key : A -> Z) (next : Z) (l : list A) :
  Forall (fun r => key r < next) l -> Forall (fun r => key r < next + 1) l.
Proof. intros H. eapply Forall_impl; [|exact H]. simpl. intros; lia. Qed.

Lemma references_kept {A P} (ref : A -> Z) (key : P -> Z) (rows : list A) (l k : list P) :
  Forall (fun r => In (ref r) (map key l)) rows ->
  Forall (fun r => In (ref r) (map key (l ++ k))) rows.
Proof.
  intros H. eapply Forall_impl; [|exact H]. simpl. intros a Ha.
  rewrite map_app. apply in_or_app. now left.
Qed.

Lemma Forall_filter {A} (P : A -> Prop) (f : A -> bool) (l : list A) :
  Forall P l -> Forall P (filter f l).
Proof.
  rewrite !Forall_forall. intros H x Hx. apply filter_In in Hx. apply H, Hx.
Qed.

Lemma NoDup_map_filter {A K} (key : A -> K) (f : A -> bool) (l : list A) :
  NoDup (map key l) -> NoDup (map key (filter f l)).
Proof.
  induction l as [|a l IH]; simpl; intros H; [constructor|].
  inversion H as [|? ? Hn Hd]; subst.
  destruct (f a); simpl; [|now apply IH].
  constructor; [|now apply IH].
  intros Hin. apply Hn. apply in_map_iff in Hin as (x & E & Hx).
  apply filter_In in Hx. rewrite <- E. apply in_map, Hx.
Qed.

(** An UPDATE that keeps a column keeps it on the whole table. *)
Lemma map_update_keeps {A K} (key : A -> K) (c : A -> bool) (g : A -> A) (l : list A) :
  (forall r, key (g r) = key r) ->
  map key (map (fun r => if c r then g r else r) l) = map key l.
Proof.
  intros H. rewrite map_map. apply map_ext. intros r. destruct (c r); auto.
Qed.

Lemma Forall_update {A} (P : A -> Prop) (c : A -> bool) (g : A -> A) (l : list A) :
  (forall r, P r -> P (g r)) ->
  Forall P l -> Forall P (map (fun r => if c r then g r else r) l).
Proof.
  intros H Hl. apply Forall_map. eapply Forall_impl; [|exact Hl].
  simpl. intros r Hr. destruct (c r); auto.
Qed.

Lemma wf_perform {B : Bcrypt} (c : env * operation) (db : database) :
  wf db -> wf (perform c db).
Proof.
  intros [].
  destruct c as [e o]. destruct o; simpl; unfold_ops; run_py;
  repeat (break_if; simpl); constructor; simpl; auto using below_next.
  all: try (apply NoDup_map_snoc; [assumption|]; simpl).
  all: try (eapply key_not_taken; eassumption).
  all: try (eapply text_not_taken; eassumption).
  all: try (apply below_snoc; [assumption|reflexivity]).
  all: try (apply references_kept; assumption).
  all: try (apply Forall_app; split;
            [assumption|repeat constructor; simpl; eapply key_present; eassumption]).
  all: try (apply Forall_filter; assumption).
  all: try (apply NoDup_map_filter; assumption).
  all: try (rewrite map_update_keeps; [assumption | reflexivity]).
  all: try (apply Forall_update; [intros r Hr; exact Hr | assumption]).
Qed.

Lemma wf_perform_all {B : Bcrypt} (cs : list (env * operation)) (db : database) :
  wf db -> wf (perform_all cs db).
Proof.
  unfold perform_all. revert db.
  induction cs as [|c cs IH]; simpl; intros db H; [assumption|].
  apply IH. now apply wf_perform.
Qed.

(** Every store the module can build from an empty one satisfies the
    schema. *)
Lemma wf_reachable {B : Bcrypt} (cs : list (env * operation)) :
  wf (perform_all cs empty_db).
Proof. apply wf_perform_all, wf_empty_db. Qed.

(** ** What one call can do to the rows that exist *)

Lemma extends_refl {A} (l : list A) : extends l l.
Proof. exists []. now rewrite app_nil_r. Qed.

Lemma extends_app {A} (l k : list A) : extends l (l ++ k).
Proof. now exists k. Qed.

Lemma extends_trans {A} (l1 l2 l3 : list A) :
  extends l1 l2 -> extends l2 l3 -> extends l1 l3.
Proof. intros [k ->] [k' ->]. exists (k ++ k'). now rewrite app_assoc. Qed.

Lemma eq_int_true (column : Z) (param : option Z) :
  eq_int column param = true -> param = Some column.
Proof.
  destruct param as [v|]; simpl; [|discriminate].
  intros H. apply Z.eqb_eq in H. now subst.
Qed.

Lemma perform_users {B : Bcrypt} (c : env * operation) (db : database) :
  extends (users (data db)) (users (data (perform c db))).
Proof.
  destruct c as [e o]. destruct o; simpl; unfold_ops; run_py;
  repeat (break_if; simpl); try apply extends_refl; try apply extends_app.
Qed.

Lemma perform_ipos {B : Bcrypt} (c : env * operation) (db : database) :
  extends (ipos (data db)) (ipos (data (perform c db))).
Proof.
  destruct c as [e o]. destruct o; simpl; unfold_ops; run_py;
  repeat (break_if; simpl); try apply extends_refl; try apply extends_app.
Qed.

Lemma perform_past_investments {B : Bcrypt} (c : env * operation) (db : database) :
  extends (map fixed_columns (past_investments (data db)))
          (map fixed_columns (past_investments (data (perform c db)))).
Proof.
  destruct c as [e o]. destruct o; simpl; unfold_ops; run_py;
  repeat (break_if; simpl); try apply extends_refl;
  try (rewrite map_app; apply extends_app);
  rewrite map_update_keeps; try reflexivity; apply extends_refl.
Qed.

Lemma perform_ongoing_watchlist {B : Bcrypt} (c : env * operation) (db : database)
  (w : Ongoing_Watchlist.row) :
  In w (ongoing_watchlist (data db)) ->
  In w (ongoing_watchlist (data (perform c db))) \/
  snd c = Remove_from_watchlist (Some (Ongoing_Watchlist.watchlist_id w))
                                (Some (Ongoing_Watchlist.user_id w)).
Proof.
  intros Hw.
  destruct c as [e o]. destruct o; simpl; unfold_ops; run_py;
  repeat (break_if; simpl); auto; try (left; apply in_or_app; now left).
  destruct (eq_int (Ongoing_Watchlist.watchlist_id w) watchlist_id
            && eq_int (Ongoing_Watchlist.user_id w) user_id) eqn:E.
  - apply andb_true_iff in E as [E1 E2].
    apply eq_int_true in E1, E2. subst. now right.
  - left. apply filter_In. split; [assumption | now rewrite E].
Qed.

Lemma perform_all_users {B : Bcrypt} (cs : list (env * operation)) (db : database) :
  extends (users (data db)) (users (data (perform_all cs db))).
Proof.
  unfold perform_all. revert db.
  induction cs as [|c cs IH]; simpl; intros db; [apply extends_refl|].
  eapply extends_trans; [apply perform_users | apply IH].
Qed.

Lemma perform_all_ipos {B : Bcrypt} (cs : list (env * operation)) (db : database) :
  extends (ipos (data db)) (ipos (data (perform_all cs db))).
Proof.
  unfold perform_all. revert db.
  induction cs as [|c cs IH]; simpl; intros db; [apply extends_refl|].
  eapply extends_trans; [apply perform_ipos | apply IH].
Qed.

Lemma perform_all_past_investments {B : Bcrypt} (cs : list (env * operation))
  (db : database) :
  extends (map fixed_columns (past_investments (data db)))
          (map fixed_columns (past_investments (data (perform_all cs db)))).
Proof.
  unfold perform_all. revert db.
  induction cs as [|c cs IH]; simpl; intros db; [apply extends_refl|].
  eapply extends_trans; [apply perform_past_investments | apply IH].
Qed.

Lemma perform_all_ongoing_watchlist {B : Bcrypt} (cs : list (env * operation))
  (db : database) (w : Ongoing_Watchlist.row) :
  In w (ongoing_watchlist (data db)) ->
  In w (ongoing_watchlist (data (perform_all cs db))) \/
  exists e, In (e, Remove_from_watchlist (Some (Ongoing_Watchlist.watchlist_id w))
                                         (Some (Ongoing_Watchlist.user_id w))) cs.
Proof.
  unfold perform_all. revert db.
  induction cs as [|c cs IH]; simpl; intros db Hin; [now left|].
  destruct (perform_ongoing_watchlist c db w Hin) as [Hkept | Hrm].
  - destruct (IH _ Hkept) as [?|[e He]]; [now left | right; exists e; now right].
  - right. exists (fst c). left. rewrite <- Hrm. now destruct c.
Qed.

(** C9.  Over every sequence of calls of the functions of the module, from
    every store: the rows of Users and of IPOs that exist stay in place with
    every field unchanged ([updated_at] included), the tables only growing
    at the end; no row of Past_Investments disappears, and its columns other
    than [status] and [sold_date] stay as inserted; and a row of
    Ongoing_Watchlist is still there, unchanged, unless one of the calls was
    [remove_from_watchlist] with that row's id and that row's user. *)
Theorem rows_are_kept {B : Bcrypt} (cs : list (env * operation)) (db : database) :
  extends (users (data db)) (users (data (perform_all cs db))) /\
  extends (ipos (data db)) (ipos (data (perform_all cs db))) /\
  extends (map fixed_columns (past_investments (data db)))
          (map fixed_columns (past_investments (data (perform_all cs db)))) /\
  (forall w, In w (ongoing_watchlist (data db)) ->
     In w (ongoing_watchlist (data (perform_all cs db))) \/
     exists e, In (e, Remove_from_watchlist (Some (Ongoing_Watchlist.watchlist_id w))
                                            (Some (Ongoing_Watchlist.user_id w))) cs).
Proof.
  split; [apply perform_all_users|].
  split; [apply perform_all_ipos|].
  split; [apply perform_all_past_investments|].
  intros w. apply perform_all_ongoing_watchlist.
Qed.

(** ** authenticate_user *)








(** ** store_ipo and get_ipo *)





Lemma get_ipo_returns (e : env) (db : database) (i : option Z) :
  reachable e = true ->
  get_ipo e i db
  = (db, Return (hd_error (filter (fun r => eq_int (IPOs.ipo_id r) i) (ipos (data db))))).
Proof.
  intros He. unfold get_ipo, SELECT_IPOs_by_ipo_id. run_py. rewrite He. simpl.
  now destruct db.
Qed.








(** ** ORDER BY *)

Section OrderBy.
Variable A : Type.
Variable leb : A -> A -> bool.
Hypothesis leb_total : forall x y, leb x y = true \/ leb y x = true.
Hypothesis leb_trans : forall x y z, leb x y = true -> leb y z = true -> leb x z = true.

Lemma insert_by_perm (x : A) (l : list A) : Permutation (x :: l) (insert_by leb x l).
Proof.
  induction l as [|y l IH]; simpl; [reflexivity|].
  destruct (leb x y); [reflexivity|].
  rewrite perm_swap. now apply perm_skip.
Qed.

Lemma order_by_perm (l : list A) : Permutation (order_by leb l) l.
Proof.
  induction l as [|x l IH]; simpl; [reflexivity|].
  fold (order_by leb l). rewrite <- insert_by_perm. now apply perm_skip.
Qed.

Lemma insert_by_sorted (x : A) (l : list A) :
  StronglySorted (fun a b => leb a b = true) l ->
  StronglySorted (fun a b => leb a b = true) (insert_by leb x l).
Proof.
  induction 1 as [|y l Hs IH Hy]; simpl.
  - repeat constructor.
  - destruct (leb x y) eqn:E.
    + constructor; [now constructor|].
      constructor; [assumption|].
      eapply Forall_impl; [|exact Hy]. simpl. intros z Hz. eapply leb_trans; eassumption.
    + constructor; [assumption|].
      rewrite <- insert_by_perm. constructor; [|assumption].
      destruct (leb_total x y); congruence.
Qed.

Lemma order_by_sorted (l : list A) :
  StronglySorted (fun a b => leb a b = true) (order_by leb l).
Proof.
  induction l as [|x l IH]; simpl; [constructor|].
  now apply insert_by_sorted.
Qed.

(** In a sorted list an element strictly below another comes before it. *)
Lemma sorted_precedes (l : list A) (x y : A) :
  StronglySorted (fun a b => leb a b = true) l ->
  In x l -> In y l -> leb y x = false -> precedes x y l.
Proof.
  induction 1 as [|a l Hs IH Ha]; simpl; intros Hx Hy Hlt; [contradiction|].
  rewrite Forall_forall in Ha.
  destruct Hx as [Hx|Hx], Hy as [Hy|Hy].
  - subst x y. destruct (leb_total a a); congruence.
  - subst x. apply in_split in Hy as (l2 & l3 & ->). now exists [], l2, l3.
  - subst y. rewrite (Ha x Hx) in Hlt. discriminate.
  - destruct (IH Hx Hy Hlt) as (l1 & l2 & l3 & ->). now exists (a :: l1), l2, l3.
Qed.

End OrderBy.

Lemma map_snd_combine_same {A B} (ks : list A) (l : list B) :
  List.length ks = List.length l -> map snd (combine ks l) = l.
Proof.
  revert l. induction ks as [|k ks IH]; intros [|x l]; simpl; try discriminate.
  - reflexivity.
  - intros [= H]. now rewrite IH.
Qed.

(** A scan comes across each row once. *)
Lemma arrange_perm {A} (ranks : list nat) (l : list A) : Permutation (arrange ranks l) l.
Proof.
  unfold arrange.
  rewrite (Permutation_map snd (order_by_perm _ _)).
  rewrite map_snd_combine_same; [reflexivity|].
  now rewrite length_map, length_seq.
Qed.

(** The rows a query returns are the rows it selects, each once. *)
Lemma listing_perm {A} (leb : A -> A -> bool) (ranks : list nat) (l : list A) :
  Permutation (order_by leb (arrange ranks l)) l.
Proof. rewrite order_by_perm. apply arrange_perm. Qed.

Lemma asc_total (a b : option Z) : asc a b = true \/ asc b a = true.
Proof.
  destruct a as [x|], b as [y|]; simpl; auto.
  destruct (Z.leb_spec x y); [now left|right]. apply Z.leb_le. lia.
Qed.

Lemma asc_trans (a b c : option Z) : asc a b = true -> asc b c = true -> asc a c = true.
Proof.
  destruct a as [x|], b as [y|], c as [z|]; simpl; try congruence.
  rewrite !Z.leb_le. lia.
Qed.

(** ** get_user_watchlist *)

Lemma get_user_watchlist_returns (e : env) (db : database) (u : option Z) :
  reachable e = true ->
  get_user_watchlist e u db
  = (db, Return (order_by by_ipo_date_asc
                   (arrange (scan e) (watchlist_join (data db) u)))).
Proof.
  intros He. unfold get_user_watchlist, SELECT_watchlist. run_py. rewrite He. simpl.
  now destruct db.
Qed.

Lemma In_watchlist_join (t : tables) (u : option Z) (it : Watchlist_Item.row) :
  In it (watchlist_join t u) <->
  exists w i,
    In w (ongoing_watchlist t) /\ u = Some (Ongoing_Watchlist.user_id w) /\
    In i (ipos t) /\ Ongoing_Watchlist.ipo_id w = IPOs.ipo_id i /\
    it = Watchlist_Item.mk (Ongoing_Watchlist.watchlist_id w)
                           (Ongoing_Watchlist.expiry_date w) i.
Proof.
  unfold watchlist_join. rewrite in_flat_map. split.
  - intros (w & Hw & Hit). apply filter_In in Hw as [Hw Hu].
    apply in_map_iff in Hit as (i & <- & Hi). apply filter_In in Hi as [Hi E].
    exists w, i. repeat split; trivial.
    + now apply eq_int_true.
    + now apply Z.eqb_eq.
  - intros (w & i & Hw & -> & Hi & E & ->). exists w. split.
    + apply filter_In. split; [assumption|]. simpl. apply Z.eqb_refl.
    + apply in_map. apply filter_In. split; [assumption|]. now apply Z.eqb_eq.
Qed.

(** With the foreign key and the primary key of IPOs, the join has one row
    for each watchlist row of the user. *)
Lemma watchlist_join_one_each (db : database) (u : option Z) :
  wf db ->
  map Watchlist_Item.watchlist_id (watchlist_join (data db) u)
  = map Ongoing_Watchlist.watchlist_id
        (filter (fun ow => eq_int (Ongoing_Watchlist.user_id ow) u)
                (ongoing_watchlist (data db))).
Proof.
  intros Hwf. unfold watchlist_join.
  pose proof (ongoing_watchlist_ipo_id_fkey Hwf) as Hfk.
  assert (Hfk' : Forall (fun r => In (Ongoing_Watchlist.ipo_id r)
                                     (map IPOs.ipo_id (ipos (data db))))
                        (filter (fun ow => eq_int (Ongoing_Watchlist.user_id ow) u)
                                (ongoing_watchlist (data db))))
    by now apply Forall_filter.
  induction Hfk' as [|w ws Hw _ IH]; simpl; [reflexivity|].
  rewrite map_app, IH. apply in_map_iff in Hw as (i & E & Hi).
  rewrite <- E.
  rewrite (filter_key_unique IPOs.ipo_id (fun a b => b =? a) (ipos (data db)) i).
  - reflexivity.
  - intros a b. rewrite Z.eqb_eq. split; congruence.
  - apply (ipos_pkey Hwf).
  - assumption.
Qed.

(** C5.  On a store that satisfies the schema: when a user has two
    watchlist entries whose IPOs are dated [D1 < D2], [get_user_watchlist]
    returns a list in which the entry dated [D1] comes before the entry
    dated [D2]; the list is sorted by ascending [ipo_date] (NULLs last), its
    rows are exactly the user's watchlist rows each joined with the IPO it
    references, one for each watchlist row, and the store is as before. *)
Theorem get_user_watchlist_sorted (e : env) (db : database) (uid : Z)
  (w1 w2 : Ongoing_Watchlist.row) (i1 i2 : IPOs.row) (D1 D2 : date) :
  wf db -> reachable e = true ->
  In w1 (ongoing_watchlist (data db)) -> In w2 (ongoing_watchlist (data db)) ->
  Ongoing_Watchlist.user_id w1 = uid -> Ongoing_Watchlist.user_id w2 = uid ->
  In i1 (ipos (data db)) -> In i2 (ipos (data db)) ->
  Ongoing_Watchlist.ipo_id w1 = IPOs.ipo_id i1 ->
  Ongoing_Watchlist.ipo_id w2 = IPOs.ipo_id i2 ->
  IPOs.ipo_date i1 = Some D1 -> IPOs.ipo_date i2 = Some D2 -> D1 < D2 ->
  exists l,
    get_user_watchlist e (Some uid) db = (db, Return l) /\
    precedes (Watchlist_Item.mk (Ongoing_Watchlist.watchlist_id w1)
                                (Ongoing_Watchlist.expiry_date w1) i1)
             (Watchlist_Item.mk (Ongoing_Watchlist.watchlist_id w2)
                                (Ongoing_Watchlist.expiry_date w2) i2) l /\
    StronglySorted (fun a b => by_ipo_date_asc a b = true) l /\
    (forall it, In it l <->
       exists w i,
         In w (ongoing_watchlist (data db)) /\ Ongoing_Watchlist.user_id w = uid /\
         In i (ipos (data db)) /\ Ongoing_Watchlist.ipo_id w = IPOs.ipo_id i /\
         it = Watchlist_Item.mk (Ongoing_Watchlist.watchlist_id w)
                                (Ongoing_Watchlist.expiry_date w) i) /\
    Permutation (map Watchlist_Item.watchlist_id l)
                (map Ongoing_Watchlist.watchlist_id
                     (filter (fun w => Ongoing_Watchlist.user_id w =? uid)
                             (ongoing_watchlist (data db)))).
Proof.
  intros Hwf He Hw1 Hw2 Hu1 Hu2 Hi1 Hi2 E1 E2 HD1 HD2 Hlt.
  exists (order_by by_ipo_date_asc
            (arrange (scan e) (watchlist_join (data db) (Some uid)))).
  assert (Hin : forall it,
             In it (order_by by_ipo_date_asc
                      (arrange (scan e) (watchlist_join (data db) (Some uid)))) <->
             exists w i,
               In w (ongoing_watchlist (data db)) /\ Ongoing_Watchlist.user_id w = uid /\
               In i (ipos (data db)) /\ Ongoing_Watchlist.ipo_id w = IPOs.ipo_id i /\
               it = Watchlist_Item.mk (Ongoing_Watchlist.watchlist_id w)
                                      (Ongoing_Watchlist.expiry_date w) i).
  { intros it. split.
    - intros H. apply (Permutation_in _ (listing_perm _ _ _)) in H.
      apply In_watchlist_join in H as (w & i & ? & Hu & ? & ? & ?).
      exists w, i. repeat split; trivial. congruence.
    - intros (w & i & ? & Hu & ? & ? & ?).
      apply (Permutation_in _ (Permutation_sym (listing_perm _ _ _))).
      apply In_watchlist_join. exists w, i. repeat split; trivial. congruence. }
  assert (Hsorted : StronglySorted (fun a b => by_ipo_date_asc a b = true)
                      (order_by by_ipo_date_asc
                         (arrange (scan e) (watchlist_join (data db) (Some uid))))).
  { apply order_by_sorted.
    - intros x y. apply asc_total.
    - intros x y z. apply asc_trans. }
  split; [now apply get_user_watchlist_returns|].
  split; [|split; [exact Hsorted|split; [exact Hin|]]].
  - apply sorted_precedes with (leb := by_ipo_date_asc).
    + intros x y. apply asc_total.
    + exact Hsorted.
    + apply Hin. exists w1, i1. repeat split; trivial.
    + apply Hin. exists w2, i2. repeat split; trivial.
    + unfold by_ipo_date_asc. simpl. rewrite HD1, HD2. simpl. apply Z.leb_gt. exact Hlt.
  - rewrite (Permutation_map _ (listing_perm _ _ _)).
    now rewrite watchlist_join_one_each.
Qed.

Lemma get_user_watchlist_sorted_witness :
  exists l,
    get_user_watchlist env0 (Some 1) demo_db = (demo_db, Return l) /\
    precedes (Watchlist_Item.mk 2 (Some 20049)
                (IPOs.mk 2 "Bolt" "BOLT" None None None (Some 20050) None None
                         (Some 1000) (Some 1000)))
             (Watchlist_Item.mk 1 None
                (IPOs.mk 1 "Acme" "ACME" (Some "Acme Corp") (Some 1250) (Some 1000000)
                         (Some 20100) (Some "upcoming") (Some "Anvils")
                         (Some 1000) (Some 1000))) l.
Proof.
  destruct (@get_user_watchlist_sorted env0 demo_db 1
              (Ongoing_Watchlist.mk 2 1 2 (Some 20049)) (Ongoing_Watchlist.mk 1 1 1 None)
              (IPOs.mk 2 "Bolt" "BOLT" None None None (Some 20050) None None
                       (Some 1000) (Some 1000))
              (IPOs.mk 1 "Acme" "ACME" (Some "Acme Corp") (Some 1250) (Some 1000000)
                       (Some 20100) (Some "upcoming") (Some "Anvils")
                       (Some 1000) (Some 1000))
              20050 20100 wf_demo_db eq_refl)
    as (l & Hget & Hprec & _); simpl; auto; try reflexivity.
  exists l. split; assumption.
Defined.

(** ** remove_from_watchlist *)

Lemma same_db (db : database) : mkDb (data db) (seqs db) = db.
Proof. now destruct db. Qed.

Lemma same_ongoing_watchlist (t : tables) : set_ongoing_watchlist t (ongoing_watchlist t) = t.
Proof. now destruct t. Qed.


Lemma key_injective {A K} (key : A -> K) (l : list A) (r w : A) :
  NoDup (map key l) -> In r l -> In w l -> key r = key w -> r = w.
Proof.
  induction l as [|a l IH]; simpl; intros Hnd Hr Hw E; [contradiction|].
  inversion Hnd as [|? ? Hn Hd]; subst.
  destruct Hr as [Hr|Hr], Hw as [Hw|Hw]; try congruence.
  - subst a. exfalso. apply Hn. rewrite E. now apply in_map.
  - subst a. exfalso. apply Hn. rewrite <- E. now apply in_map.
  - now apply IH.
Qed.

Lemma remove_from_watchlist_returns (e : env) (db : database) (wid uid : option Z) :
  reachable e = true ->
  remove_from_watchlist e wid uid db
  = (mkDb (set_ongoing_watchlist (data db)
             (filter (fun r => negb (eq_int (Ongoing_Watchlist.watchlist_id r) wid
                                     && eq_int (Ongoing_Watchlist.user_id r) uid))
                     (ongoing_watchlist (data db))))
          (seqs db),
     Return true).
Proof.
  intros He. unfold remove_from_watchlist, DELETE_FROM_Ongoing_Watchlist. run_py.
  now rewrite He.
Qed.

(** C6.  On a store that can be reached [remove_from_watchlist] always
    returns [True]; it deletes the rows of Ongoing_Watchlist whose id and
    whose user both equal the arguments and touches nothing else.  On a
    store that satisfies the schema: called with the id and the user of an
    entry, it removes that entry and no other row, and no later listing
    shows the entry; called with the id of an entry and another user, or
    with arguments no row matches, it leaves the store as it was. *)
Theorem remove_from_watchlist_scoped (e e' : env) (db : database) :
  reachable e = true -> reachable e' = true ->
  (forall wid uid,
     exists rest,
       remove_from_watchlist e wid uid db
       = (mkDb (set_ongoing_watchlist (data db) rest) (seqs db), Return true) /\
       forall r, In r rest <->
                 In r (ongoing_watchlist (data db)) /\
                 ~ (wid = Some (Ongoing_Watchlist.watchlist_id r) /\
                    uid = Some (Ongoing_Watchlist.user_id r))) /\
  (forall w,
     wf db -> In w (ongoing_watchlist (data db)) ->
     exists db',
       remove_from_watchlist e (Some (Ongoing_Watchlist.watchlist_id w))
                               (Some (Ongoing_Watchlist.user_id w)) db
       = (db', Return true) /\
       (forall r, In r (ongoing_watchlist (data db')) <->
                  In r (ongoing_watchlist (data db)) /\ r <> w) /\
       (forall u l, get_user_watchlist e' u db' = (db', Return l) ->
                    forall it, In it l ->
                    Watchlist_Item.watchlist_id it <> Ongoing_Watchlist.watchlist_id w)) /\
  (forall w other,
     wf db -> In w (ongoing_watchlist (data db)) ->
     other <> Some (Ongoing_Watchlist.user_id w) ->
     remove_from_watchlist e (Some (Ongoing_Watchlist.watchlist_id w)) other db
     = (db, Return true)) /\
  (forall wid uid,
     (forall r, In r (ongoing_watchlist (data db)) ->
                ~ (wid = Some (Ongoing_Watchlist.watchlist_id r) /\
                   uid = Some (Ongoing_Watchlist.user_id r))) ->
     remove_from_watchlist e wid uid db = (db, Return true)).
Proof.
  intros He He'.
  assert (Hmatch : forall wid uid r,
             eq_int (Ongoing_Watchlist.watchlist_id r) wid
             && eq_int (Ongoing_Watchlist.user_id r) uid = true <->
             wid = Some (Ongoing_Watchlist.watchlist_id r) /\
             uid = Some (Ongoing_Watchlist.user_id r)).
  { intros wid uid r. rewrite andb_true_iff. split.
    - intros [H1 H2]. split; now apply eq_int_true.
    - intros [-> ->]. simpl. now rewrite !Z.eqb_refl. }
  assert (Hrest : forall wid uid r,
             In r (filter (fun r => negb (eq_int (Ongoing_Watchlist.watchlist_id r) wid
                                          && eq_int (Ongoing_Watchlist.user_id r) uid))
                          (ongoing_watchlist (data db))) <->
             In r (ongoing_watchlist (data db)) /\
             ~ (wid = Some (Ongoing_Watchlist.watchlist_id r) /\
                uid = Some (Ongoing_Watchlist.user_id r))).
  { intros wid uid r. rewrite filter_In, negb_true_iff, <- Hmatch.
    now rewrite not_true_iff_false. }
  assert (Hnone : forall wid uid,
             (forall r, In r (ongoing_watchlist (data db)) ->
                        ~ (wid = Some (Ongoing_Watchlist.watchlist_id r) /\
                           uid = Some (Ongoing_Watchlist.user_id r))) ->
             remove_from_watchlist e wid uid db = (db, Return true)).
  { intros wid uid Hno. rewrite remove_from_watchlist_returns by assumption.
    rewrite filter_all.
    - now rewrite same_ongoing_watchlist, same_db.
    - intros r Hr. apply negb_true_iff, not_true_iff_false.
      rewrite Hmatch. now apply Hno. }
  split; [|split; [|split]].
  - intros wid uid. eexists. split; [now apply remove_from_watchlist_returns|].
    apply Hrest.
  - intros w Hwf Hw. eexists. split; [now apply remove_from_watchlist_returns|].
    assert (Hleft : forall r,
               In r (filter (fun r => negb (eq_int (Ongoing_Watchlist.watchlist_id r)
                                              (Some (Ongoing_Watchlist.watchlist_id w))
                                            && eq_int (Ongoing_Watchlist.user_id r)
                                                 (Some (Ongoing_Watchlist.user_id w))))
                            (ongoing_watchlist (data db))) <->
               In r (ongoing_watchlist (data db)) /\ r <> w).
    { intros r. rewrite Hrest. split; intros [Hr Hne]; split; trivial.
      - intros ->. now apply Hne.
      - intros [[= E1] [= E2]]. apply Hne.
        apply (key_injective Ongoing_Watchlist.watchlist_id (ongoing_watchlist (data db)));
          try congruence. apply (ongoing_watchlist_pkey Hwf). }
    simpl. split; [exact Hleft|].
    intros u l Hget it Hit.
    rewrite get_user_watchlist_returns in Hget by assumption.
    injection Hget as <-.
    apply (Permutation_in _ (listing_perm _ _ _)) in Hit.
    apply In_watchlist_join in Hit as (w0 & i & Hw0 & _ & _ & _ & ->). simpl in *.
    apply Hleft in Hw0 as [Hw0 Hne]. intros E. apply Hne.
    apply (key_injective Ongoing_Watchlist.watchlist_id (ongoing_watchlist (data db)));
      try congruence. apply (ongoing_watchlist_pkey Hwf).
  - intros w other Hwf Hw Hother. apply Hnone.
    intros r Hr [[= E1] E2]. apply Hother. rewrite E2. f_equal. f_equal.
    apply (key_injective Ongoing_Watchlist.watchlist_id (ongoing_watchlist (data db)));
      try congruence. apply (ongoing_watchlist_pkey Hwf).
  - exact Hnone.
Qed.

Lemma remove_from_watchlist_scoped_witness :
  (exists db',
     remove_from_watchlist env1 (Some 2) (Some 1) demo_db = (db', Return true) /\
     forall l, get_user_watchlist env0 (Some 1) db' = (db', Return l) ->
               forall it, In it l -> Watchlist_Item.watchlist_id it <> 2) /\
  remove_from_watchlist env1 (Some 2) (Some 2) demo_db = (demo_db, Return true).
Proof.
  destruct (@remove_from_watchlist_scoped env1 env0 demo_db eq_refl eq_refl)
    as (_ & Howner & Hother & _).
  split.
  - destruct (Howner (Ongoing_Watchlist.mk 2 1 2 (Some 20049)) wf_demo_db)
      as (db' & Hrm & _ & Hlist).
    + simpl. auto.
    + exists db'. split; [exact Hrm|]. intros l. apply Hlist.
  - apply (Hother (Ongoing_Watchlist.mk 2 1 2 (Some 20049)) (Some 2) wf_demo_db).
    + simpl. auto.
    + discriminate.
Defined.

(** ** update_investment_status *)








(** ** add_investment *)

Lemma existsb_key {A} (key : A -> Z) (l : list A) (k : Z) :
  In k (map key l) -> existsb (fun r => key r =? k) l = true.
Proof.
  intros H. apply in_map_iff in H as (r & E & Hr).
  apply existsb_true_exists. exists r. split; [assumption | apply Z.eqb_eq, E].
Qed.



(** C8.  [add_investment] called without [sold_date] (the parameter's
    default, [None]) on a store with the user and the IPO: the row it
    inserts has a NULL [sold_date], not the time of the insert. *)
Theorem add_investment_omitted_sold_date_is_null :
  exists db' stored,
    add_investment env1 (Some 2) (Some 2) (Some 5) (Some (cents 990)) None (Some "pending")
      demo_db
    = (db', Return (Past_Investments.investment_id stored)) /\
    past_investments (data db') = past_investments (data demo_db) ++ [stored] /\
    Past_Investments.sold_date stored = None /\
    Past_Investments.sold_date stored <> Some (now env1).
Proof.
  exists (mkDb (set_past_investments (data demo_db)
                  (past_investments (data demo_db) ++
                   [Past_Investments.mk 2 2 2 5 990 None (Some "pending")]))
               (next_investment (seqs demo_db))),
         (Past_Investments.mk 2 2 2 5 990 None (Some "pending")).
  repeat split; discriminate.
Qed.

(** ** init_db, add_to_watchlist, get_user_investments *)

(** On a store that has its tables [init_db] changes nothing. *)
Lemma init_db_idempotent (e : env) (db : database) :
  reachable e = true -> init_db e db = (db, Return tt).
Proof.
  intros He. unfold init_db, CREATE_TABLE_IF_NOT_EXISTS. run_py. rewrite He. simpl.
  now destruct db.
Qed.

Lemma add_to_watchlist_inserts (e : env) (db : database) (u i : Z)
  (expiry_date : option date) :
  wf db -> reachable e = true ->
  In u (map Users.user_id (users (data db))) ->
  In i (map IPOs.ipo_id (ipos (data db))) ->
  add_to_watchlist e (Some u) (Some i) expiry_date db
  = (mkDb (set_ongoing_watchlist (data db)
             (ongoing_watchlist (data db) ++
              [Ongoing_Watchlist.mk (ongoing_watchlist_watchlist_id_seq (seqs db))
                                    u i expiry_date]))
          (next_watchlist (seqs db)),
     Return (ongoing_watchlist_watchlist_id_seq (seqs db))).
Proof.
  intros Hwf He Hu Hi.
  unfold add_to_watchlist, INSERT_INTO_Ongoing_Watchlist, coerced. run_py.
  rewrite He. simpl.
  rewrite !integer_key_known by assumption. simpl.
  rewrite (below_not_taken Ongoing_Watchlist.watchlist_id
             (ongoing_watchlist_watchlist_id_below Hwf)).
  now rewrite (existsb_key Users.user_id _ _ Hu), (existsb_key IPOs.ipo_id _ _ Hi).
Qed.

Lemma desc_total (a b : option Z) : desc a b = true \/ desc b a = true.
Proof. unfold desc. destruct (asc_total a b); auto. Qed.

Lemma desc_trans (a b c : option Z) :
  desc a b = true -> desc b c = true -> desc a c = true.
Proof. unfold desc. intros H1 H2. eapply asc_trans; eassumption. Qed.

Lemma get_user_investments_sorted (e : env) (db : database) (u : option Z) :
  reachable e = true ->
  exists l,
    get_user_investments e u db = (db, Return l) /\
    Permutation l (investments_join (data db) u) /\
    StronglySorted (fun a b => by_sold_date_desc a b = true) l.
Proof.
  intros He.
  exists (order_by by_sold_date_desc (arrange (scan e) (investments_join (data db) u))).
  split; [|split].
  - unfold get_user_investments, SELECT_investments. run_py. rewrite He. simpl.
    now destruct db.
  - apply listing_perm.
  - apply order_by_sorted.
    + intros x y. apply desc_total.
    + intros x y z. apply desc_trans.
Qed.

(** The scenario of the investment ledger: an investment recorded, then
    marked sold by its owner, is listed once, sold, with the new date; the
    same update under another user's id leaves it pending. *)
Example sold_by_owner_only :
  let sold := fst (update_investment_status env1 (Some 1) (Some 1) (Some "sold")
                     (Some 2500) demo_db) in
  let tried := fst (update_investment_status env1 (Some 1) (Some 2) (Some "sold")
                      (Some 2500) demo_db) in
  snd (get_user_investments env1 (Some 1) sold)
  = Return [Investment_Item.mk (Past_Investments.mk 1 1 1 10 1250 (Some 2500) (Some "sold"))
                               "Acme" "ACME" (Some 20100)] /\
  snd (get_user_investments env1 (Some 1) tried)
  = Return [Investment_Item.mk (Past_Investments.mk 1 1 1 10 1250 None (Some "pending"))
                               "Acme" "ACME" (Some 20100)].
Proof. split; reflexivity. Qed.

(** The scenario of the watchlist: alice's listing puts Bolt, dated before
    Acme, first although it was added second; after she removes that entry
    it is gone, and bob cannot remove her other one. *)
Example watchlist_scenario :
  let listed db :=
    match snd (get_user_watchlist env1 (Some 1) db) with
    | Return l => map Watchlist_Item.watchlist_id l
    | Raise _ => []
    end in
  listed demo_db = [2; 1] /\
  listed (fst (remove_from_watchlist env1 (Some 2) (Some 1) demo_db)) = [1] /\
  listed (fst (remove_from_watchlist env1 (Some 1) (Some 2) demo_db)) = [2; 1].
Proof. repeat split; reflexivity. Qed.

(** * Further properties of the module *)

(** ** Failures: what they are and what they leave behind *)

(** X1.  When the store cannot be reached, every function of the module
    raises [OperationalError] and the store is as it was. *)
Theorem unreachable_store_raises {B : Bcrypt} (c : env * operation) (db : database) :
  reachable (fst c) = false ->
  perform c db = db /\ exception_of c db = Some OperationalError.
Proof.
  destruct c as [e o]. simpl. intros He.
  destruct o; unfold exception_of; simpl; unfold_ops; run_py; rewrite He; simpl;
    now destruct db.
Qed.

Lemma unreachable_store_raises_witness :
  @perform demo_bcrypt (env_down, Create_user (Some "carol") (Some "carol@example.org")
                                              (Some "secret") None None) demo_db
  = demo_db /\
  @exception_of demo_bcrypt (env_down, Create_user (Some "carol") (Some "carol@example.org")
                                                   (Some "secret") None None) demo_db
  = Some OperationalError.
Proof.
  exact (@unreachable_store_raises demo_bcrypt
           (env_down, Create_user (Some "carol") (Some "carol@example.org")
                                  (Some "secret") None None) demo_db eq_refl).
Defined.

(** X2.  A call that raises leaves every table as it was: nothing a failed
    call did is committed. *)
Theorem failed_call_changes_no_table {B : Bcrypt} (c : env * operation) (db : database)
  (x : exn) :
  exception_of c db = Some x -> data (perform c db) = data db.
Proof.
  destruct c as [e o].
  destruct o; unfold exception_of; simpl; unfold_ops; run_py;
    repeat (break_if; simpl); try discriminate; reflexivity.
Qed.

Lemma failed_call_changes_no_table_witness :
  @exception_of demo_bcrypt (env1, Add_to_watchlist (Some 7) (Some 1) None) demo_db
  = Some (ForeignKeyViolation "ongoing_watchlist_user_id_fkey") /\
  data (@perform demo_bcrypt (env1, Add_to_watchlist (Some 7) (Some 1) None) demo_db)
  = data demo_db.
Proof.
  split; [reflexivity|].
  exact (@failed_call_changes_no_table demo_bcrypt
           (env1, Add_to_watchlist (Some 7) (Some 1) None) demo_db _ eq_refl).
Defined.

(** X3.  The four lookups never change the store, whatever their arguments
    and whether they return or raise. *)
Theorem lookups_change_nothing {B : Bcrypt} (e : env) (db : database) :
  (forall u p, fst (authenticate_user e u p db) = db) /\
  (forall i, fst (get_ipo e i db) = db) /\
  (forall u, fst (get_user_watchlist e u db) = db) /\
  (forall u, fst (get_user_investments e u db) = db).
Proof.
  repeat split; intros; unfold_ops; run_py;
    repeat (break_if; simpl); now destruct db.
Qed.

(** X4.  Each function that writes touches one table only: [create_user]
    Users, [store_ipo] IPOs, [add_to_watchlist] and [remove_from_watchlist]
    Ongoing_Watchlist, [add_investment] and [update_investment_status]
    Past_Investments. *)
Theorem writes_touch_one_table {B : Bcrypt} (e : env) (db : database) :
  (forall u m p f l,
     let db' := fst (create_user e u m p f l db) in
     ipos (data db') = ipos (data db) /\
     ongoing_watchlist (data db') = ongoing_watchlist (data db) /\
     past_investments (data db') = past_investments (data db)) /\
  (forall d,
     let db' := fst (store_ipo e d db) in
     users (data db') = users (data db) /\
     ongoing_watchlist (data db') = ongoing_watchlist (data db) /\
     past_investments (data db') = past_investments (data db)) /\
  (forall u i x,
     let db' := fst (add_to_watchlist e u i x db) in
     users (data db') = users (data db) /\
     ipos (data db') = ipos (data db) /\
     past_investments (data db') = past_investments (data db)) /\
  (forall w u,
     let db' := fst (remove_from_watchlist e w u db) in
     users (data db') = users (data db) /\
     ipos (data db') = ipos (data db) /\
     past_investments (data db') = past_investments (data db)) /\
  (forall u i n p d s,
     let db' := fst (add_investment e u i n p d s db) in
     users (data db') = users (data db) /\
     ipos (data db') = ipos (data db) /\
     ongoing_watchlist (data db') = ongoing_watchlist (data db)) /\
  (forall i u s d,
     let db' := fst (update_investment_status e i u s d db) in
     users (data db') = users (data db) /\
     ipos (data db') = ipos (data db) /\
     ongoing_watchlist (data db') = ongoing_watchlist (data db)).
Proof.
  repeat split; unfold_ops; run_py; repeat (break_if; simpl); reflexivity.
Qed.

(** X5.  The constraints of the schema of [init_db] (primary keys, the
    UNIQUE username and email, the foreign keys of the watchlist and of the
    investments) hold in the empty store and are kept by every sequence of
    calls, whatever the calls return or raise. *)
Theorem schema_is_kept {B : Bcrypt} (cs : list (env * operation)) (db : database) :
  wf db -> wf (perform_all cs db) /\ wf (perform_all cs empty_db).
Proof.
  intros H. split; [now apply wf_perform_all | apply wf_perform_all, wf_empty_db].
Qed.

Lemma schema_is_kept_witness :
  wf (@perform_all demo_bcrypt
        [(env1, Create_user (Some "alice") (Some "other@example.org") (Some "pw") None None);
         (env1, Remove_from_watchlist (Some 1) (Some 1));
         (env1, Add_investment (Some 2) (Some 9) (Some 1) (Some (cents 100)) None None)]
        demo_db).
Proof.
  exact (proj1 (@schema_is_kept demo_bcrypt
                  [(env1, Create_user (Some "alice") (Some "other@example.org") (Some "pw")
                                      None None);
                   (env1, Remove_from_watchlist (Some 1) (Some 1));
                   (env1, Add_investment (Some 2) (Some 9) (Some 1) (Some (cents 100)) None None)]
                  demo_db wf_demo_db)).
Defined.

(** ** create_user and authenticate_user: edge cases *)





(** ** store_ipo and get_ipo: edge cases *)





(** ** None as an identifier, and users without rows *)



(** X11.  For a user without watchlist rows, or without investments (an
    unknown user, or [None]), the listing is the empty list: no error and no
    [None]. *)
Theorem listings_of_users_without_rows (e : env) (db : database) (u : option Z) :
  reachable e = true ->
  ((forall w, In w (ongoing_watchlist (data db)) -> Some (Ongoing_Watchlist.user_id w) <> u) ->
   get_user_watchlist e u db = (db, Return [])) /\
  ((forall r, In r (past_investments (data db)) -> Some (Past_Investments.user_id r) <> u) ->
   get_user_investments e u db = (db, Return [])).
Proof.
  intros He. split; intros Hno.
  - rewrite get_user_watchlist_returns by assumption.
    unfold watchlist_join. rewrite filter_none; [reflexivity|].
    intros w Hw. destruct (eq_int (Ongoing_Watchlist.user_id w) u) eqn:E; [|reflexivity].
    apply eq_int_true in E. exfalso. now apply (Hno w Hw).
  - unfold get_user_investments, SELECT_investments. run_py. rewrite He. simpl.
    unfold investments_join. rewrite filter_none; [now destruct db|].
    intros r Hr. destruct (eq_int (Past_Investments.user_id r) u) eqn:E; [|reflexivity].
    apply eq_int_true in E. exfalso. now apply (Hno r Hr).
Qed.

Lemma listings_of_users_without_rows_witness :
  get_user_watchlist env1 (Some 9) demo_db = (demo_db, Return []) /\
  get_user_investments env1 (Some 2) demo_db = (demo_db, Return []).
Proof.
  split.
  - apply (proj1 (@listings_of_users_without_rows env1 demo_db (Some 9) eq_refl)).
    simpl. intros w [<-|[<-|[<-|[]]]]; discriminate.
  - apply (proj2 (@listings_of_users_without_rows env1 demo_db (Some 2) eq_refl)).
    simpl. intros w [<-|[]]; discriminate.
Defined.

(** ** Calls in sequence *)

Lemma filter_twice {A} (f : A -> bool) (l : list A) : filter f (filter f l) = filter f l.
Proof. apply filter_all. intros x Hx. apply filter_In in Hx. apply Hx. Qed.

(** X12.  [remove_from_watchlist] is idempotent: a second call with the same
    arguments returns [True] again and changes nothing more. *)
Theorem remove_from_watchlist_twice (e1 e2 : env) (db : database) (w u : option Z) :
  reachable e1 = true -> reachable e2 = true ->
  remove_from_watchlist e2 w u (fst (remove_from_watchlist e1 w u db))
  = (fst (remove_from_watchlist e1 w u db), Return true).
Proof.
  intros He1 He2. rewrite (@remove_from_watchlist_returns e1 db w u He1). simpl.
  rewrite remove_from_watchlist_returns by assumption. simpl.
  unfold set_ongoing_watchlist. simpl. now rewrite filter_twice.
Qed.

Lemma remove_from_watchlist_twice_witness :
  remove_from_watchlist env0 (Some 2) (Some 1)
    (fst (remove_from_watchlist env1 (Some 2) (Some 1) demo_db))
  = (fst (remove_from_watchlist env1 (Some 2) (Some 1) demo_db), Return true).
Proof.
  exact (@remove_from_watchlist_twice env1 env0 demo_db (Some 2) (Some 1) eq_refl eq_refl).
Defined.





(** ** Investments over time *)

Lemma nth_error_update {A} (c : A -> bool) (g : A -> A) (l : list A) (k : nat) (r : A) :
  nth_error l k = Some r ->
  nth_error (map (fun x => if c x then g x else x) l) k = Some (if c r then g r else r).
Proof. intros H. now rewrite nth_error_map, H. Qed.

Lemma nth_error_snoc {A} (l : list A) (x : A) (k : nat) (r : A) :
  nth_error l k = Some r -> nth_error (l ++ [x]) k = Some r.
Proof.
  intros H. rewrite nth_error_app1; [assumption|].
  apply nth_error_Some. congruence.
Qed.

Lemma perform_keeps_sold_date {B : Bcrypt} (c : env * operation) (db : database)
  (k : nat) (r : Past_Investments.row) :
  nth_error (past_investments (data db)) k = Some r ->
  exists r',
    nth_error (past_investments (data (perform c db))) k = Some r' /\
    fixed_columns r' = fixed_columns r /\
    (Past_Investments.sold_date r <> None -> Past_Investments.sold_date r' <> None).
Proof.
  intros Hk.
  destruct c as [e o]. destruct o; simpl; unfold_ops; run_py;
  repeat (break_if; simpl);
  try (exists r; repeat split; solve [auto using nth_error_snoc]).
  - eexists. split; [apply nth_error_update; exact Hk|].
    destruct (matches investment_id user_id r); simpl; repeat split; auto;
      intros _ E; rewrite E in *; discriminate.
  - eexists. split; [apply nth_error_update; exact Hk|].
    destruct (matches investment_id user_id r); simpl; repeat split; auto.
Qed.

(** X14.  No call clears a [sold_date]: an investment that has one keeps
    having one, at the same place in the table and with the same id, user,
    IPO, shares and price, over every sequence of calls.  (An update without
    [sold_date] keeps the date, one with [sold_date] replaces it.) *)
Theorem sold_date_is_never_cleared {B : Bcrypt} (cs : list (env * operation))
  (db : database) (k : nat) (r : Past_Investments.row) :
  nth_error (past_investments (data db)) k = Some r ->
  Past_Investments.sold_date r <> None ->
  exists r',
    nth_error (past_investments (data (perform_all cs db))) k = Some r' /\
    fixed_columns r' = fixed_columns r /\
    Past_Investments.sold_date r' <> None.
Proof.
  unfold perform_all. revert db r.
  induction cs as [|c cs IH]; simpl; intros db r Hk Hd.
  - exists r. auto.
  - destruct (perform_keeps_sold_date c db k Hk) as (r1 & Hk1 & Hf1 & Hd1).
    destruct (IH _ _ Hk1 (Hd1 Hd)) as (r' & Hk' & Hf' & Hd').
    exists r'. repeat split; trivial. congruence.
Qed.

Lemma sold_date_is_never_cleared_witness :
  let db := fst (update_investment_status env0 (Some 1) (Some 1) (Some "sold") (Some 2500)
                   demo_db) in
  exists r',
    nth_error (past_investments (data (@perform_all demo_bcrypt
                 [(env1, Update_investment_status (Some 1) (Some 1) (Some "pending") None);
                  (env1, Update_investment_status (Some 1) (Some 1) None None)] db))) 0
    = Some r' /\
    Past_Investments.sold_date r' <> None.
Proof.
  destruct (@sold_date_is_never_cleared demo_bcrypt
              [(env1, Update_investment_status (Some 1) (Some 1) (Some "pending") None);
               (env1, Update_investment_status (Some 1) (Some 1) None None)]
              (fst (update_investment_status env0 (Some 1) (Some 1) (Some "sold") (Some 2500)
                      demo_db))
              0%nat (Past_Investments.mk 1 1 1 10 1250 (Some 2500) (Some "sold"))
              eq_refl) as (r' & Hk & _ & Hd).
  - discriminate.
  - exists r'. split; assumption.
Defined.

(** ** Watchlist entries: duplicates, identifiers, refused references *)

(** X15.  [add_to_watchlist] does not look for an existing entry: adding the
    same IPO for the same user twice succeeds twice, returns two
    consecutive ids, and leaves two rows. *)
Theorem add_to_watchlist_twice (e1 e2 : env) (db : database) (u i : Z)
  (x1 x2 : option date) :
  wf db -> reachable e1 = true -> reachable e2 = true ->
  In u (map Users.user_id (users (data db))) ->
  In i (map IPOs.ipo_id (ipos (data db))) ->
  exists db1 db2 id,
    add_to_watchlist e1 (Some u) (Some i) x1 db = (db1, Return id) /\
    add_to_watchlist e2 (Some u) (Some i) x2 db1 = (db2, Return (id + 1)) /\
    ongoing_watchlist (data db2)
    = ongoing_watchlist (data db)
      ++ [Ongoing_Watchlist.mk id u i x1; Ongoing_Watchlist.mk (id + 1) u i x2].
Proof.
  intros Hwf He1 He2 Hu Hi.
  pose proof (@add_to_watchlist_inserts e1 db u i x1 Hwf He1 Hu Hi) as H1.
  assert (Hwf1 : wf (fst (add_to_watchlist e1 (Some u) (Some i) x1 db)))
    by exact (@wf_perform demo_bcrypt (e1, Add_to_watchlist (Some u) (Some i) x1) db Hwf).
  rewrite H1 in Hwf1. simpl in Hwf1.
  pose proof (@add_to_watchlist_inserts e2 _ u i x2 Hwf1 He2 Hu Hi) as H2.
  do 3 eexists. split; [exact H1|]. split; [exact H2|].
  simpl. now rewrite <- app_assoc.
Qed.

Lemma add_to_watchlist_twice_witness :
  exists db1 db2,
    add_to_watchlist env0 (Some 2) (Some 2) None demo_db = (db1, Return 4) /\
    add_to_watchlist env1 (Some 2) (Some 2) (Some 20060) db1 = (db2, Return 5).
Proof.
  destruct (@add_to_watchlist_twice env0 env1 demo_db 2 2 None (Some 20060) wf_demo_db
              eq_refl eq_refl) as (db1 & db2 & id & H1 & H2 & _).
  - simpl. auto.
  - simpl. auto.
  - exists db1, db2.
    assert (E : id = 4) by (vm_compute in H1; congruence).
    subst id. split; assumption.
Defined.

Lemma perform_watchlist_seq {B : Bcrypt} (c : env * operation) (db : database) :
  ongoing_watchlist_watchlist_id_seq (seqs db)
  <= ongoing_watchlist_watchlist_id_seq (seqs (perform c db)).
Proof.
  destruct c as [e o]. destruct o; simpl; unfold_ops; run_py;
  repeat (break_if; simpl); lia.
Qed.

Lemma perform_all_watchlist_seq {B : Bcrypt} (cs : list (env * operation)) (db : database) :
  ongoing_watchlist_watchlist_id_seq (seqs db)
  <= ongoing_watchlist_watchlist_id_seq (seqs (perform_all cs db)).
Proof.
  unfold perform_all. revert db.
  induction cs as [|c cs IH]; simpl; intros db; [lia|].
  etransitivity; [apply perform_watchlist_seq | apply IH].
Qed.

Lemma add_to_watchlist_returned_id (e : env) (db db' : database) (u i : option Z)
  (x : option date) (id : Z) :
  add_to_watchlist e u i x db = (db', Return id) ->
  id = ongoing_watchlist_watchlist_id_seq (seqs db).
Proof.
  unfold add_to_watchlist, INSERT_INTO_Ongoing_Watchlist, coerced, not_null. run_py.
  repeat (break_if; simpl); intros [= ]; congruence.
Qed.

(** X16.  A watchlist id is never handed out twice: whatever calls come
    after an entry exists (its removal included), an id that
    [add_to_watchlist] returns later is greater than that entry's id. *)
Theorem watchlist_ids_are_not_reused {B : Bcrypt} (cs : list (env * operation))
  (e : env) (db db' : database) (w : Ongoing_Watchlist.row)
  (u i : option Z) (x : option date) (id : Z) :
  wf db -> In w (ongoing_watchlist (data db)) ->
  add_to_watchlist e u i x (perform_all cs db) = (db', Return id) ->
  Ongoing_Watchlist.watchlist_id w < id.
Proof.
  intros Hwf Hw Hadd. apply add_to_watchlist_returned_id in Hadd. subst id.
  pose proof (ongoing_watchlist_watchlist_id_below Hwf) as Hb.
  rewrite Forall_forall in Hb. specialize (Hb w Hw).
  pose proof (perform_all_watchlist_seq cs db). lia.
Qed.

Lemma watchlist_ids_are_not_reused_witness :
  exists db',
    add_to_watchlist env1 (Some 1) (Some 2) None
      (@perform_all demo_bcrypt [(env1, Remove_from_watchlist (Some 3) (Some 2))] demo_db)
    = (db', Return 4) /\
    3 < 4.
Proof.
  eexists. split; [reflexivity|].
  exact (@watchlist_ids_are_not_reused demo_bcrypt
           [(env1, Remove_from_watchlist (Some 3) (Some 2))] env1 demo_db _
           (Ongoing_Watchlist.mk 3 2 1 None) (Some 1) (Some 2) None 4
           wf_demo_db (or_intror (or_intror (or_introl eq_refl))) eq_refl).
Defined.



(** ** Listings after writes *)

Lemma In_investments_join (t : tables) (u : option Z) (it : Investment_Item.row) :
  In it (investments_join t u) <->
  exists r i,
    In r (past_investments t) /\ u = Some (Past_Investments.user_id r) /\
    In i (ipos t) /\ Past_Investments.ipo_id r = IPOs.ipo_id i /\
    it = Investment_Item.mk r (IPOs.name i) (IPOs.symbol i) (IPOs.ipo_date i).
Proof.
  unfold investments_join. rewrite in_flat_map. split.
  - intros (r & Hr & Hit). apply filter_In in Hr as [Hr Hu].
    apply in_map_iff in Hit as (i & <- & Hi). apply filter_In in Hi as [Hi E].
    exists r, i. repeat split; trivial.
    + now apply eq_int_true.
    + now apply Z.eqb_eq.
  - intros (r & i & Hr & -> & Hi & E & ->). exists r. split.
    + apply filter_In. split; [assumption|]. simpl. apply Z.eqb_refl.
    + apply in_map_iff. exists i. split; [reflexivity|].
      apply filter_In. split; [assumption|]. now apply Z.eqb_eq.
Qed.

Lemma investments_join_one_each (db : database) (u : option Z) :
  wf db ->
  map Investment_Item.investment (investments_join (data db) u)
  = filter (fun r => eq_int (Past_Investments.user_id r) u) (past_investments (data db)).
Proof.
  intros Hwf. unfold investments_join.
  pose proof (past_investments_ipo_id_fkey Hwf) as Hfk.
  assert (Hfk' : Forall (fun r => In (Past_Investments.ipo_id r)
                                     (map IPOs.ipo_id (ipos (data db))))
                        (filter (fun r => eq_int (Past_Investments.user_id r) u)
                                (past_investments (data db))))
    by now apply Forall_filter.
  induction Hfk' as [|r rs Hr _ IH]; simpl; [reflexivity|].
  rewrite map_app, IH. apply in_map_iff in Hr as (i & E & Hi).
  rewrite <- E.
  rewrite (filter_key_unique IPOs.ipo_id (fun a b => b =? a) (ipos (data db)) i).
  - reflexivity.
  - intros a b. rewrite Z.eqb_eq. split; congruence.
  - apply (ipos_pkey Hwf).
  - assumption.
Qed.

Lemma get_user_investments_returns (e : env) (db : database) (u : option Z) :
  reachable e = true ->
  get_user_investments e u db
  = (db, Return (order_by by_sold_date_desc
                   (arrange (scan e) (investments_join (data db) u)))).
Proof.
  intros He. unfold get_user_investments, SELECT_investments. run_py. rewrite He. simpl.
  now destruct db.
Qed.

(** X18.  On a store that satisfies the schema, [get_user_investments]
    returns each investment of the user exactly once, with the name, symbol
    and date of the IPO it references, ordered by descending [sold_date]:
    an investment without [sold_date] comes before every one that has one,
    and of two dated ones the later comes first.  The store is as before. *)
Theorem get_user_investments_listing (e : env) (db : database) (uid : Z) :
  wf db -> reachable e = true ->
  exists l,
    get_user_investments e (Some uid) db = (db, Return l) /\
    Permutation (map Investment_Item.investment l)
                (filter (fun r => Past_Investments.user_id r =? uid)
                        (past_investments (data db))) /\
    (forall it, In it l ->
       exists i, In i (ipos (data db)) /\
                 IPOs.ipo_id i = Past_Investments.ipo_id (Investment_Item.investment it) /\
                 Investment_Item.ipo_name it = IPOs.name i /\
                 Investment_Item.symbol it = IPOs.symbol i /\
                 Investment_Item.ipo_date it = IPOs.ipo_date i) /\
    (forall a b d, In a l -> In b l ->
       Past_Investments.sold_date (Investment_Item.investment a) = None ->
       Past_Investments.sold_date (Investment_Item.investment b) = Some d ->
       precedes a b l) /\
    (forall a b da db', In a l -> In b l ->
       Past_Investments.sold_date (Investment_Item.investment a) = Some da ->
       Past_Investments.sold_date (Investment_Item.investment b) = Some db' ->
       db' < da -> precedes a b l).
Proof.
  intros Hwf He.
  exists (order_by by_sold_date_desc
            (arrange (scan e) (investments_join (data db) (Some uid)))).
  assert (Hsorted : StronglySorted (fun a b => by_sold_date_desc a b = true)
                      (order_by by_sold_date_desc
                         (arrange (scan e) (investments_join (data db) (Some uid))))).
  { apply order_by_sorted.
    - intros x y. apply desc_total.
    - intros x y z. apply desc_trans. }
  split; [now apply get_user_investments_returns|].
  split; [|split; [|split]].
  - rewrite (Permutation_map _ (listing_perm _ _ _)).
    now rewrite investments_join_one_each.
  - intros it Hit. apply (Permutation_in _ (listing_perm _ _ _)) in Hit.
    apply In_investments_join in Hit as (r & i & _ & _ & Hi & E & ->).
    exists i. simpl. auto.
  - intros a b d Ha Hb Ea Eb.
    apply sorted_precedes with (leb := by_sold_date_desc); trivial.
    + intros x y. apply desc_total.
    + unfold by_sold_date_desc, desc. now rewrite Ea, Eb.
  - intros a b da db' Ha Hb Ea Eb Hlt.
    apply sorted_precedes with (leb := by_sold_date_desc); trivial.
    + intros x y. apply desc_total.
    + unfold by_sold_date_desc, desc. rewrite Ea, Eb. simpl. apply Z.leb_gt. exact Hlt.
Qed.

Lemma get_user_investments_listing_witness :
  exists l,
    get_user_investments env1 (Some 1) demo_db = (demo_db, Return l) /\
    Permutation (map Investment_Item.investment l)
                [Past_Investments.mk 1 1 1 10 1250 None (Some "pending")].
Proof.
  destruct (@get_user_investments_listing env1 demo_db 1 wf_demo_db eq_refl)
    as (l & Hget & Hperm & _).
  exists l. split; assumption.
Defined.






(** X21.  An entry added with [add_to_watchlist] is listed by
    [get_user_watchlist] for its user, with its id, its expiry date and the
    row of its IPO; the listing of every other user has the rows it had
    (the order of rows with the same date being open). *)
Theorem add_to_watchlist_then_list (e1 e2 : env) (db : database) (u : Z) (i : IPOs.row)
  (x : option date) :
  wf db -> reachable e1 = true -> reachable e2 = true ->
  In u (map Users.user_id (users (data db))) -> In i (ipos (data db)) ->
  exists db' id l,
    add_to_watchlist e1 (Some u) (Some (IPOs.ipo_id i)) x db = (db', Return id) /\
    get_user_watchlist e2 (Some u) db' = (db', Return l) /\
    In (Watchlist_Item.mk id x i) l /\
    (forall other e3, other <> Some u -> reachable e3 = true ->
       exists after before,
         get_user_watchlist e2 other db' = (db', Return after) /\
         get_user_watchlist e3 other db = (db, Return before) /\
         Permutation after before).
Proof.
  intros Hwf He1 He2 Hu Hi.
  pose proof (@add_to_watchlist_inserts e1 db u (IPOs.ipo_id i) x Hwf He1 Hu
                (in_map _ _ _ Hi)) as Hadd.
  do 3 eexists. split; [exact Hadd|].
  split; [now apply get_user_watchlist_returns|].
  simpl. split.
  - apply (Permutation_in _ (Permutation_sym (listing_perm _ _ _))).
    apply In_watchlist_join.
    exists (Ongoing_Watchlist.mk (ongoing_watchlist_watchlist_id_seq (seqs db))
                                 u (IPOs.ipo_id i) x), i.
    simpl. repeat split; trivial. apply in_or_app. right. now left.
  - intros other e3 Hother He3. do 2 eexists.
    split; [now apply get_user_watchlist_returns|].
    split; [now apply get_user_watchlist_returns|].
    rewrite !listing_perm. simpl.
    unfold watchlist_join. simpl. rewrite filter_app. simpl.
    replace (eq_int u other) with false; [now rewrite app_nil_r|].
    symmetry. apply not_true_iff_false. intros E. apply eq_int_true in E. congruence.
Qed.

Lemma add_to_watchlist_then_list_witness :
  exists db' id l,
    add_to_watchlist env1 (Some 2) (Some 2) (Some 20049) demo_db = (db', Return id) /\
    get_user_watchlist env0 (Some 2) db' = (db', Return l) /\
    In (Watchlist_Item.mk id (Some 20049)
          (IPOs.mk 2 "Bolt" "BOLT" None None None (Some 20050) None None
                   (Some 1000) (Some 1000))) l /\
    exists after before,
      get_user_watchlist env0 (Some 1) db' = (db', Return after) /\
      get_user_watchlist env2 (Some 1) demo_db = (demo_db, Return before) /\
      Permutation after before.
Proof.
  destruct (@add_to_watchlist_then_list env1 env0 demo_db 2
              (IPOs.mk 2 "Bolt" "BOLT" None None None (Some 20050) None None
                       (Some 1000) (Some 1000))
              (Some 20049) wf_demo_db eq_refl eq_refl)
    as (db' & id & l & Hadd & Hget & Hin & Hother).
  - simpl. auto.
  - simpl. auto.
  - exists db', id, l. repeat split; trivial.
    apply (Hother (Some 1) env2); [discriminate | reflexivity].
Defined.

(** ** Lookups *)

(** X22.  On a store that satisfies the schema [get_ipo] is the lookup by
    primary key: it returns a row exactly when that row is in IPOs and has
    the id asked for. *)
Theorem get_ipo_by_primary_key (e : env) (db : database) (i : option Z) (r : IPOs.row) :
  wf db -> reachable e = true ->
  (get_ipo e i db = (db, Return (Some r)) <->
   In r (ipos (data db)) /\ i = Some (IPOs.ipo_id r)).
Proof.
  intros Hwf He. rewrite get_ipo_returns by assumption. split.
  - intros [= H].
    destruct (filter (fun x => eq_int (IPOs.ipo_id x) i) (ipos (data db))) as [|a l] eqn:E;
      [discriminate|].
    simpl in H. injection H as ->.
    assert (Hin : In r (filter (fun x => eq_int (IPOs.ipo_id x) i) (ipos (data db))))
      by (rewrite E; now left).
    apply filter_In in Hin as [Hin Hi]. split; [assumption | now apply eq_int_true].
  - intros [Hin ->]. simpl.
    rewrite (filter_key_unique IPOs.ipo_id Z.eqb (ipos (data db)) r); trivial.
    + intros a b. apply Z.eqb_eq.
    + apply (ipos_pkey Hwf).
Qed.

Lemma get_ipo_by_primary_key_witness :
  get_ipo env1 (Some 2) demo_db
  = (demo_db, Return (Some (IPOs.mk 2 "Bolt" "BOLT" None None None (Some 20050) None None
                                    (Some 1000) (Some 1000)))).
Proof.
  apply (proj2 (@get_ipo_by_primary_key env1 demo_db (Some 2)
                  (IPOs.mk 2 "Bolt" "BOLT" None None None (Some 20050) None None
                           (Some 1000) (Some 1000)) wf_demo_db eq_refl)).
  split; [simpl; auto | reflexivity].
Defined.

(** X23.  [authenticate_user] returns a record only for a password that
    checks against the hash of a stored row with the username asked for:
    the record returned is in Users, its username is the argument, the
    password was a string, and [checkpw] accepted it.  (No property of
    bcrypt is assumed.) *)
Theorem authenticate_user_sound {B : Bcrypt} (e : env) (db db' : database)
  (u p : option string) (r : Users.row) :
  authenticate_user e u p db = (db', Return (Some r)) ->
  In r (users (data db)) /\ u = Some (Users.username r) /\
  exists pw, p = Some pw /\ checkpw pw (Users.password_hash r) = true.
Proof.
  unfold authenticate_user, SELECT_Users_by_username, bcrypt_checkpw. run_py.
  destruct (reachable e); simpl; [|discriminate].
  destruct (filter (fun x => eq_text (Users.username x) u) (users (data db)))
    as [|a l] eqn:E; simpl; [discriminate|].
  assert (Hin : In a (filter (fun x => eq_text (Users.username x) u) (users (data db))))
    by (rewrite E; now left).
  apply filter_In in Hin as [Hin Hu].
  destruct p as [pw|]; simpl; [|discriminate].
  destruct (refuses pw); simpl; [discriminate|].
  destruct (checkpw pw (Users.password_hash a)) eqn:C; simpl; [|discriminate].
  intros [= _ <-]. split; [assumption|]. split.
  - destruct u as [v|]; simpl in Hu; [|discriminate].
    apply String.eqb_eq in Hu. now subst.
  - now exists pw.
Qed.

Lemma authenticate_user_sound_witness :
  In (Users.mk 2 "bob" "bob@example.org" "$2b$12$abcdefghijklmnopqrstuvbuilder"
               (Some "Bob") None (Some 1000)) (users (data demo_db)) /\
  @checkpw demo_bcrypt "builder" "$2b$12$abcdefghijklmnopqrstuvbuilder" = true.
Proof.
  destruct (@authenticate_user_sound demo_bcrypt env1 demo_db demo_db
              (Some "bob") (Some "builder")
              (Users.mk 2 "bob" "bob@example.org" "$2b$12$abcdefghijklmnopqrstuvbuilder"
                        (Some "Bob") None (Some 1000)) eq_refl)
    as (Hin & _ & pw & [= <-] & Hcheck).
  split; assumption.
Defined.

(** X24.  In the listing of [get_user_watchlist] an entry whose IPO has a
    date comes before every entry whose IPO has none. *)
Theorem get_user_watchlist_undated_last (e : env) (db db' : database) (u : option Z)
  (l : list Watchlist_Item.row) (a b : Watchlist_Item.row) (d : date) :
  get_user_watchlist e u db = (db', Return l) ->
  In a l -> In b l ->
  IPOs.ipo_date (Watchlist_Item.ipo a) = Some d ->
  IPOs.ipo_date (Watchlist_Item.ipo b) = None ->
  precedes a b l.
Proof.
  unfold get_user_watchlist, SELECT_watchlist. run_py.
  destruct (reachable e); simpl; [|discriminate].
  intros [= _ <-] Ha Hb Ea Eb.
  apply sorted_precedes with (leb := by_ipo_date_asc); trivial.
  - intros x y. apply asc_total.
  - apply order_by_sorted.
    + intros x y. apply asc_total.
    + intros x y z. apply asc_trans.
  - unfold by_ipo_date_asc. now rewrite Ea, Eb.
Qed.

Lemma get_user_watchlist_undated_last_witness :
  let undated := Ipo_Data.mk (Present (Some "Coil")) (Present (Some "COIL")) Missing Missing
                             Missing Missing Missing Missing in
  let db := @perform_all demo_bcrypt
              [(env1, Store_ipo undated);
               (env1, Remove_from_watchlist (Some 1) (Some 1));
               (env1, Add_to_watchlist (Some 1) (Some 3) None);
               (env1, Add_to_watchlist (Some 1) (Some 1) None)] demo_db in
  exists l,
    get_user_watchlist env1 (Some 1) db = (db, Return l) /\
    map Watchlist_Item.watchlist_id l = [2; 5; 4] /\
    precedes
      (Watchlist_Item.mk 5 None
         (IPOs.mk 1 "Acme" "ACME" (Some "Acme Corp") (Some 1250) (Some 1000000)
                  (Some 20100) (Some "upcoming") (Some "Anvils") (Some 1000) (Some 1000)))
      (Watchlist_Item.mk 4 None
         (IPOs.mk 3 "Coil" "COIL" None None None None (Some "upcoming") None
                  (Some 2000) (Some 2000))) l.
Proof.
  intros undated db. eexists. split; [vm_compute; reflexivity|].
  split; [reflexivity|].
  refine (@get_user_watchlist_undated_last env1 db db (Some 1) _
            (Watchlist_Item.mk 5 None
               (IPOs.mk 1 "Acme" "ACME" (Some "Acme Corp") (Some 1250) (Some 1000000)
                        (Some 20100) (Some "upcoming") (Some "Anvils") (Some 1000)
                        (Some 1000)))
            (Watchlist_Item.mk 4 None
               (IPOs.mk 3 "Coil" "COIL" None None None None (Some "upcoming") None
                        (Some 2000) (Some 2000)))
            20100 _ _ _ eq_refl eq_refl).
  - vm_compute. reflexivity.
  - simpl. auto.
  - simpl. auto.
Defined.


